(** * shared_var: a reference-counted, type-erased variant handle

    A shallow embedding of [shared_var.h].  The header is generic in the
    payload type and so is the embedding: the class [Payload] gathers the
    value types of the client program with their [operator==] and their
    value-initialisation, and the header's own vocabulary
    ([std::basic_string<CharT>], [nullptr_t], the handle class) is built on
    top.  [std::shared_ptr] is a location in a heap of reference-counted
    cells, so that the copies of a handle alias one cell. *)

From Stdlib Require Import ZArith NArith List Bool String Ascii.
From Stdlib Require Import Floats.SpecFloat.
From stdpp Require Import base decidable option gmap.

(** ** Character types accepted by the C-string overloads

    [enable_if_char<T>] is inhabited exactly for [char] and [wchar_t]. *)
Inductive CharT := char | wchar_t.

#[global] Instance CharT_eq_dec : EqDecision CharT.
Proof. solve_decision. Defined.

(** A [const CharT *] argument is the sequence of code units found at the
    pointer; [std::basic_string<CharT>(p)] copies them up to, and without,
    the first zero. *)
Definition c_str := list N.

Fixpoint basic_string (p : c_str) : list N :=
  match p with
  | [] => []
  | c :: rest => if N.eqb c 0 then [] else c :: basic_string rest
  end.

(** [std::basic_string::operator==]: same length and same code units. *)
Fixpoint string_eq (a b : list N) : bool :=
  match a, b with
  | [], [] => true
  | x :: a', y :: b' => N.eqb x y && string_eq a' b'
  | _, _ => false
  end.

(** A string literal as the compiler lays it out: its characters and the
    terminating zero. *)
Fixpoint literal (s : string) : c_str :=
  match s with
  | EmptyString => [0%N]
  | String a s' => N_of_ascii a :: literal s'
  end.

(** ** What the templates ask of the client's value types

    The header is instantiated at the class and scalar types of the client
    program (cv-unqualified; volatile qualification is outside the model).
    Each comes with its values, its [operator==] and its value-initialisation
    [T()].  The two string classes are the header's own and are added
    below. *)
Class Payload := {
  ty : Type;
  ty_eq_dec :: EqDecision ty;
  carrier : ty -> Type;
  val_eq : forall u, carrier u -> carrier u -> bool;
  value_init : forall u, carrier u
}.

Section SharedVar.

Context {P : Payload}.

(** Types a cell can be instantiated at: [holder<T>]. *)
Inductive tag :=
| TString (c : CharT)
| TVal (u : ty).

#[global] Instance tag_eq_dec : EqDecision tag.
Proof. solve_decision. Defined.

Definition value (t : tag) : Type :=
  match t with
  | TString _ => list N
  | TVal u => carrier u
  end.

Definition op_eq (t : tag) : value t -> value t -> bool :=
  match t with
  | TString _ => string_eq
  | TVal u => val_eq u
  end.

Definition default_value (t : tag) : value t :=
  match t with
  | TString _ => []
  | TVal u => value_init u
  end.

(** *** The static type language seen by the templates *)
Inductive cpp_type :=
| Val (t : tag)
| shared_var_t
| nullptr_t
| Ptr (T : cpp_type)
| Arr (T : cpp_type)
| Const (T : cpp_type)
| LRef (T : cpp_type)
| RRef (T : cpp_type).

Definition is_same_shared_var (T : cpp_type) : bool :=
  match T with shared_var_t => true | _ => false end.
Definition is_same_nullptr_t (T : cpp_type) : bool :=
  match T with nullptr_t => true | _ => false end.
Definition is_pointer (T : cpp_type) : bool :=
  match T with Ptr _ | Const (Ptr _) => true | _ => false end.
Definition is_array (T : cpp_type) : bool :=
  match T with Arr _ => true | _ => false end.
Definition is_const (T : cpp_type) : bool :=
  match T with Const _ => true | _ => false end.
Definition is_reference (T : cpp_type) : bool :=
  match T with LRef _ | RRef _ => true | _ => false end.

Definition remove_reference (T : cpp_type) : cpp_type :=
  match T with LRef U | RRef U => U | _ => T end.
Definition remove_cv (T : cpp_type) : cpp_type :=
  match T with Const U => U | _ => T end.

(** [std::decay<T>::type] *)
Definition decay (T : cpp_type) : cpp_type :=
  match remove_reference T with
  | Arr U => Ptr U
  | U => remove_cv U
  end.

(** [enable_if_holdable<T>]: the six conjuncts of the header. *)
Definition enable_if_holdable (T : cpp_type) : bool :=
  negb (is_same_shared_var T) &&
  negb (is_same_nullptr_t T) &&
  negb (is_pointer T) &&
  negb (is_array T) &&
  negb (is_const T) &&
  negb (is_reference T).

(** [std::_Is_nullptr_t<T>]: [T] is [nullptr_t] up to cv-qualification. *)
Definition _Is_nullptr_t (T : cpp_type) : bool :=
  is_same_nullptr_t (remove_cv T).

(** *** Erased cells *)

(** An object of dynamic type [holder<T>]: the type and its [value_]. *)
Definition holder_base := { t : tag & value t }.

Definition holder (t : tag) (v : value t) : holder_base := existT t v.

(** [dynamic_cast<const holder<T> *>(p)] on a non-null [p]: the payload
    when the dynamic type is [holder<T>], null otherwise. *)
Definition dynamic_cast (t : tag) (p : holder_base) : option (value t) :=
  match decide (projT1 p = t) with
  | left e => Some (eq_rect (projT1 p) value (projT2 p) t e)
  | right _ => None
  end.

(** The same cast when the target is written as a static type: only
    value types have cells. *)
Definition dynamic_cast_to (T : cpp_type) (p : holder_base) : bool :=
  match T with
  | Val t => bool_decide (is_Some (dynamic_cast t p))
  | _ => false
  end.

(** [holder<T>::equals] *)
Definition equals (this rhs : holder_base) : bool :=
  match dynamic_cast (projT1 this) rhs with
  | Some rhs_value => op_eq (projT1 this) rhs_value (projT2 this)
  | None => false
  end.

(** *** The heap of control blocks behind [std::shared_ptr]

    A [shared_ptr] is null or the location of a live control block; the
    block keeps the erased object and the number of owners. *)
Record cell := Cell { object : holder_base; use_count : positive }.

Definition loc := positive.

Definition retain (c : cell) : cell :=
  Cell (object c) (Pos.succ (use_count c)).

(** one more owner of [p] *)
Definition sp_acquire (p : option loc) (h : gmap loc cell) : gmap loc cell :=
  match p with
  | None => h
  | Some l => alter retain l h
  end.

(** one owner of [p] goes away; the last one destroys the object *)
Definition sp_release (p : option loc) (h : gmap loc cell) : gmap loc cell :=
  match p with
  | None => h
  | Some l =>
      match h !! l with
      | Some c =>
          if Pos.eqb (use_count c) 1 then delete l h
          else <[l := Cell (object c) (Pos.pred (use_count c))]> h
      | None => h
      end
  end.

(** [std::make_shared]: a new block with one owner *)
Definition make_shared (o : holder_base) (h : gmap loc cell)
  : loc * gmap loc cell :=
  let l := fresh (dom h) in (l, <[l := Cell o 1]> h).

(** [p.get()], dereferenced *)
Definition get (h : gmap loc cell) (p : option loc) : option holder_base :=
  match p with
  | None => None
  | Some l => object <$> h !! l
  end.

(** *** The handle *)
Record shared_var := Handle { p_ : option loc }.

(** What a function with a declared result hands back: the value of its
    [return] statement, or nothing when control reaches the closing brace
    without one. *)
Inductive returned (A : Type) :=
| Return (a : A)
| NoReturn.
#[global] Arguments Return {A} a.
#[global] Arguments NoReturn {A}.

Definition _hold (t : tag) (val : value t)
    (h : gmap loc cell) (this : shared_var) : gmap loc cell * shared_var :=
  let '(l, h1) := make_shared (holder t val) h in
  (sp_release (p_ this) h1, Handle (Some l)).

Definition _equals (h : gmap loc cell) (this rhs : shared_var) : bool :=
  match p_ this, p_ rhs with
  | None, None => true
  | Some l, Some r =>
      match get h (Some l), get h (Some r) with
      | Some a, Some b => equals a b
      | _, _ => false
      end
  | _, _ => false
  end.

(** [T] is holdable, hence its own decayed type. *)
Definition _equals_val (h : gmap loc cell) (this : shared_var)
    (t : tag) (rhs : value t) : bool :=
  match p_ this with
  | None => false
  | Some l =>
      match get h (Some l) ≫= dynamic_cast t with
      | None => false
      | Some value_ => op_eq t value_ rhs
      end
  end.

(** **** Constructors: [this] starts with a null [p_]. *)

Definition ctor_default : shared_var := Handle None.

Definition ctor_copy (h : gmap loc cell) (rhs : shared_var)
  : gmap loc cell * shared_var :=
  (sp_acquire (p_ rhs) h, Handle (p_ rhs)).

(** the new handle and what is left of the argument *)
Definition ctor_move (val : shared_var) : shared_var * shared_var :=
  (Handle (p_ val), Handle None).

Definition ctor_nullptr : shared_var := Handle None.

Definition ctor_cstr (c : CharT) (rhs : c_str) (h : gmap loc cell)
  : gmap loc cell * shared_var :=
  _hold (TString c) (basic_string rhs) h (Handle None).

(** [shared_var(const T&)]: holds the copy [T(val)] *)
Definition ctor_cref (t : tag) (val : value t) (h : gmap loc cell)
  : gmap loc cell * shared_var :=
  _hold t val h (Handle None).

(** [shared_var(T&&)] *)
Definition ctor_rref (t : tag) (val : value t) (h : gmap loc cell)
  : gmap loc cell * shared_var :=
  _hold t val h (Handle None).

(** **** Assignment operators: new heap, new [*this], result. *)

Definition assign_copy (h : gmap loc cell) (this rhs : shared_var)
  : gmap loc cell * shared_var * returned shared_var :=
  let this' := Handle (p_ rhs) in
  (sp_release (p_ this) (sp_acquire (p_ rhs) h), this', Return this').

(** [operator=(shared_var&&)]: also gives the new state of [rhs] *)
Definition assign_move (h : gmap loc cell) (this rhs : shared_var)
  : gmap loc cell * shared_var * shared_var * returned shared_var :=
  let this' := Handle (p_ rhs) in
  let rhs' := Handle (p_ this) in
  (h, this', rhs', Return this').

Definition assign_nullptr (h : gmap loc cell) (this : shared_var)
  : gmap loc cell * shared_var * returned shared_var :=
  let this' := Handle None in
  (sp_release (p_ this) h, this', Return this').

Definition assign_cstr (c : CharT) (rhs : c_str)
    (h : gmap loc cell) (this : shared_var)
  : gmap loc cell * shared_var * returned shared_var :=
  let '(h', this') := _hold (TString c) (basic_string rhs) h this in
  (h', this', Return this').

(** [operator=(const T&)]: the body is the call of [_hold] alone *)
Definition assign_cref (t : tag) (rhs : value t)
    (h : gmap loc cell) (this : shared_var)
  : gmap loc cell * shared_var * returned shared_var :=
  let '(h', this') := _hold t rhs h this in
  (h', this', NoReturn).

(** [operator=(T&&)] *)
Definition assign_rref (t : tag) (rhs : value t)
    (h : gmap loc cell) (this : shared_var)
  : gmap loc cell * shared_var * returned shared_var :=
  let '(h', this') := _hold t rhs h this in
  (h', this', Return this').

(** **** as, is, empty

    [as<T>] initialises a [const holder<T> *] from a cast to
    [holder<decay<T>>], so it is instantiated at decayed types only. *)

Definition as_ (h : gmap loc cell) (this : shared_var) (t : tag) : value t :=
  match get h (p_ this) ≫= dynamic_cast t with
  | Some value_ => value_
  | None => default_value t
  end.

Definition as_or (h : gmap loc cell) (this : shared_var)
    (t : tag) (def : value t) : value t :=
  match get h (p_ this) ≫= dynamic_cast t with
  | Some value_ => value_
  | None => def
  end.

Definition is_ (h : gmap loc cell) (this : shared_var) (T : cpp_type) : bool :=
  if _Is_nullptr_t T then bool_decide (p_ this = None)
  else match get h (p_ this) with
       | Some o => dynamic_cast_to (decay T) o
       | None => false
       end.

Definition empty (this : shared_var) : bool :=
  bool_decide (p_ this = None).

(** *** The free comparison operators *)

Definition eq_var_var h (lhs rhs : shared_var) : bool := _equals h lhs rhs.
Definition ne_var_var h (lhs rhs : shared_var) : bool := negb (_equals h lhs rhs).

Definition eq_var_val h (lhs : shared_var) t (rhs : value t) : bool :=
  _equals_val h lhs t rhs.
Definition ne_var_val h (lhs : shared_var) t (rhs : value t) : bool :=
  negb (_equals_val h lhs t rhs).
Definition eq_val_var h t (lhs : value t) (rhs : shared_var) : bool :=
  _equals_val h rhs t lhs.
Definition ne_val_var h t (lhs : value t) (rhs : shared_var) : bool :=
  negb (_equals_val h rhs t lhs).

Definition eq_null_var (rhs : shared_var) : bool := empty rhs.
Definition eq_var_null (lhs : shared_var) : bool := empty lhs.
Definition ne_null_var (rhs : shared_var) : bool := negb (empty rhs).
Definition ne_var_null (lhs : shared_var) : bool := negb (empty lhs).

Definition eq_var_cstr h (lhs : shared_var) (c : CharT) (rhs : c_str) : bool :=
  eq_var_val h lhs (TString c) (basic_string rhs).
Definition eq_cstr_var h (c : CharT) (lhs : c_str) (rhs : shared_var) : bool :=
  eq_var_val h rhs (TString c) (basic_string lhs).
Definition ne_var_cstr h (lhs : shared_var) (c : CharT) (rhs : c_str) : bool :=
  negb (eq_var_cstr h lhs c rhs).
Definition ne_cstr_var h (c : CharT) (lhs : c_str) (rhs : shared_var) : bool :=
  negb (eq_var_cstr h rhs c lhs).

(** *** Two observations on a handle in a heap *)

(** The handle is usable: it is null or its control block is live. *)
Definition valid (h : gmap loc cell) (x : shared_var) : bool :=
  match p_ x with
  | None => true
  | Some l => bool_decide (is_Some (h !! l))
  end.

(** The handle refers to a cell of type [holder<T>] whose [value_] is [v]. *)
Definition holds (h : gmap loc cell) (x : shared_var)
    (t : tag) (v : value t) : Prop :=
  get h (p_ x) = Some (holder t v).

End SharedVar.

(** ** Client programs

    The handles of a program are objects of their own: an assignment to one
    must be seen through every other handle that shares its cell.  A state
    is the heap together with the handle objects, named by position; a
    statement constructs a handle, assigns to one, or ends its lifetime. *)
Section Program.

Context {P : Payload}.

Record program_state := State {
  heap : gmap loc cell;
  handles : list shared_var
}.

(** the right-hand side of an initialisation or assignment *)
Inductive operand :=
| OHandle (j : nat)                     (* a handle, as an lvalue *)
| OMoved (j : nat)                      (* std::move of a handle *)
| ONullptr
| OCStr (c : CharT) (s : c_str)
| OLvalue (t : tag) (v : value t)
| ORvalue (t : tag) (v : value t).

Inductive statement :=
| Decl                                  (* shared_var v; *)
| Init (o : operand)                    (* shared_var v(o); *)
| Assign (i : nat) (o : operand)        (* v_i = o; *)
| Destroy (i : nat).                    (* the lifetime of v_i ends *)

Definition construct (o : operand) (σ : program_state) : option program_state :=
  let h := heap σ in
  let hs := handles σ in
  match o with
  | OHandle j =>
      xj ← hs !! j;
      let r := ctor_copy h xj in Some (State r.1 (hs ++ [r.2]))
  | OMoved j =>
      xj ← hs !! j;
      let r := ctor_move xj in Some (State h (<[j := r.2]> hs ++ [r.1]))
  | ONullptr => Some (State h (hs ++ [ctor_nullptr]))
  | OCStr c s =>
      let r := ctor_cstr c s h in Some (State r.1 (hs ++ [r.2]))
  | OLvalue t v =>
      let r := ctor_cref t v h in Some (State r.1 (hs ++ [r.2]))
  | ORvalue t v =>
      let r := ctor_rref t v h in Some (State r.1 (hs ++ [r.2]))
  end.

(** What is left of a call once it is over: the state it produced when it
    came back through a [return]; nothing when control flowed off the end
    of the function, which leaves the program without a defined
    continuation whether or not the result is used. *)
Definition completed {A : Type} (r : A * returned shared_var) : option A :=
  match r.2 with
  | Return _ => Some r.1
  | NoReturn => None
  end.

(** an assignment statement [v_i = o;] *)
Definition assign_to (i : nat) (o : operand) (σ : program_state)
  : option program_state :=
  let h := heap σ in
  let hs := handles σ in
  xi ← hs !! i;
  match o with
  | OHandle j =>
      xj ← hs !! j;
      r ← completed (assign_copy h xi xj);
      Some (State r.1 (<[i := r.2]> hs))
  | OMoved j =>
      xj ← hs !! j;
      r ← completed (assign_move h xi xj);
      Some (State r.1.1 (<[j := r.2]> (<[i := r.1.2]> hs)))
  | ONullptr =>
      r ← completed (assign_nullptr h xi);
      Some (State r.1 (<[i := r.2]> hs))
  | OCStr c s =>
      r ← completed (assign_cstr c s h xi);
      Some (State r.1 (<[i := r.2]> hs))
  | OLvalue t v =>
      r ← completed (assign_cref t v h xi);
      Some (State r.1 (<[i := r.2]> hs))
  | ORvalue t v =>
      r ← completed (assign_rref t v h xi);
      Some (State r.1 (<[i := r.2]> hs))
  end.

(** The destructor of the class is the implicit one: it destroys [p_]. *)
Definition destroy (i : nat) (σ : program_state) : option program_state :=
  xi ← handles σ !! i;
  Some (State (sp_release (p_ xi) (heap σ)) (<[i := Handle None]> (handles σ))).

Definition exec (s : statement) (σ : program_state) : option program_state :=
  match s with
  | Decl => Some (State (heap σ) (handles σ ++ [ctor_default]))
  | Init o => construct o σ
  | Assign i o => assign_to i o σ
  | Destroy i => destroy i σ
  end.

Fixpoint run (prog : list statement) (σ : program_state)
  : option program_state :=
  match prog with
  | [] => Some σ
  | s :: prog' => σ' ← exec s σ; run prog' σ'
  end.

Definition initial : program_state := State ∅ [].

(** the handles a statement writes to, other than the one it declares *)
Definition writes (s : statement) : list nat :=
  match s with
  | Decl => []
  | Init (OMoved j) => [j]
  | Init _ => []
  | Assign i (OMoved j) => [i; j]
  | Assign i _ => [i]
  | Destroy i => [i]
  end.

(** *** Reference counts *)

(** 1 when the pointer is [l] *)
Definition points (p : option loc) (l : loc) : nat :=
  if decide (p = Some l) then 1 else 0.

(** how many handles refer to [l] *)
Fixpoint refs (l : loc) (hs : list shared_var) : nat :=
  match hs with
  | [] => 0
  | x :: hs' => points (p_ x) l + refs l hs'
  end.

(** the owner count the heap records for [l] *)
Definition owners (h : gmap loc cell) (l : loc) : nat :=
  match h !! l with
  | Some c => Pos.to_nat (use_count c)
  | None => 0
  end.

(** Every live cell counts exactly the handles that refer to it, and no
    handle refers to a dead one. *)
Definition counted (σ : program_state) : Prop :=
  forall l, owners (heap σ) l = refs l (handles σ).

(** what the [i]th handle holds: [None] for an empty handle *)
Definition content (σ : program_state) (i : nat) : option holder_base :=
  x ← handles σ !! i; get (heap σ) (p_ x).

End Program.

(** ** The value types of the test program

    [int], [double], [bool] and [std::vector<bool>], with the equality the
    language gives them; [double] is IEEE 754 binary64. *)
Module Builtin.

Inductive type := t_int | t_double | t_bool | t_vector_bool.

#[global] Instance type_eq_dec : EqDecision type.
Proof. solve_decision. Defined.

Definition values (u : type) : Type :=
  match u with
  | t_int => Z
  | t_double => spec_float
  | t_bool => bool
  | t_vector_bool => list bool
  end.

Fixpoint vector_bool_eq (a b : list bool) : bool :=
  match a, b with
  | [], [] => true
  | x :: a', y :: b' => Bool.eqb x y && vector_bool_eq a' b'
  | _, _ => false
  end.

Definition equal (u : type) : values u -> values u -> bool :=
  match u with
  | t_int => Z.eqb
  | t_double => SFeqb
  | t_bool => Bool.eqb
  | t_vector_bool => vector_bool_eq
  end.

Definition init (u : type) : values u :=
  match u with
  | t_int => 0%Z
  | t_double => S754_zero false
  | t_bool => false
  | t_vector_bool => []
  end.

Definition payload : Payload :=
  {| ty := type; carrier := values; val_eq := equal; value_init := init |}.

(** the [double] values 3.0 and 14.0, and a quiet NaN *)
Definition three : spec_float := S754_finite false 6755399441055744 (-51).
Definition fourteen : spec_float := S754_finite false 7881299347898368 (-49).
Definition NaN : spec_float := S754_nan.

Definition int : @tag payload := TVal (t_int : @ty payload).
Definition double : @tag payload := TVal (t_double : @ty payload).
Definition std_string : @tag payload := TString char.
Definition std_wstring : @tag payload := TString wchar_t.

(** *** States of a small client

    [shared_var x(3);] in an empty heap, then [shared_var y(3.0);], and,
    separately, [shared_var n(NaN);]. *)
#[local] Existing Instance payload.

Definition x : shared_var := (ctor_rref int 3%Z ∅).2.
Definition heap_x : gmap loc cell := (ctor_rref int 3%Z ∅).1.

Definition y : shared_var := (ctor_rref double three heap_x).2.
Definition heap_xy : gmap loc cell := (ctor_rref double three heap_x).1.

Definition n : shared_var := (ctor_rref double NaN ∅).2.
Definition heap_n : gmap loc cell := (ctor_rref double NaN ∅).1.

(** the same as programs: [shared_var x(3);] and [shared_var n(NaN);] *)
Definition declare_x : list statement := [Init (ORvalue int 3%Z)].
Definition state_x : program_state := State heap_x [x].

Definition declare_n : list statement := [Init (ORvalue double NaN)].
Definition state_n : program_state := State heap_n [n].

(** followed by [shared_var b(n);] *)
Definition state_n_copied : program_state :=
  State (ctor_copy heap_n n).1 [n; (ctor_copy heap_n n).2].

(** [shared_var x(3); shared_var b(x);], then [x = "hi";] *)
Definition state_x_copied : program_state :=
  State (ctor_copy heap_x x).1 [x; (ctor_copy heap_x x).2].
Definition state_x_reassigned : program_state :=
  State (assign_cstr char (literal "hi") (ctor_copy heap_x x).1 x).1.1
        [(assign_cstr char (literal "hi") (ctor_copy heap_x x).1 x).1.2;
         (ctor_copy heap_x x).2].

(** the program that reaches [state_x_copied] *)
Definition shared_twice : list statement := declare_x ++ [Init (OHandle 0)].

End Builtin.

(** ** A client class whose [operator==] is one-sided

    [struct at_most { int n;
       bool operator==(const at_most& o) const { return n <= o.n; } };]
    It is copyable, and none of the six conjuncts of [enable_if_holdable]
    excludes it. *)
Module OneSided.

Definition payload : Payload :=
  {| ty := unit;
     carrier := fun _ => Z;
     val_eq := fun _ => Z.leb;
     value_init := fun _ => 0%Z |}.

#[local] Existing Instance payload.

Definition at_most : tag := TVal (tt : @ty payload).

(** [shared_var a(at_most{1}); shared_var b(at_most{2});] *)
Definition two_handles : list statement :=
  [Init (ORvalue at_most 1%Z); Init (ORvalue at_most 2%Z)].

Definition a : shared_var := (ctor_rref at_most 1%Z ∅).2.
Definition heap_a : gmap loc cell := (ctor_rref at_most 1%Z ∅).1.
Definition b : shared_var := (ctor_rref at_most 2%Z heap_a).2.
Definition heap_ab : gmap loc cell := (ctor_rref at_most 2%Z heap_a).1.

End OneSided.

(** * Properties *)

Lemma string_eq_refl (a : list N) : string_eq a a = true.
Proof.
  induction a as [|x a IH]; simpl; [reflexivity|].
  rewrite N.eqb_refl. exact IH.
Qed.

Lemma string_eq_sym (a b : list N) : string_eq a b = string_eq b a.
Proof.
  revert b. induction a as [|x a IH]; intros [|y b]; simpl; try reflexivity.
  rewrite (N.eqb_sym x y). f_equal. apply IH.
Qed.

Section Properties.

Context {P : Payload}.

Implicit Types (t : tag) (h : gmap loc cell) (x y : shared_var) (l : loc).

(** *** Holdable types *)

Lemma enable_if_holdable_Val t : enable_if_holdable (Val t) = true.
Proof. reflexivity. Qed.

Lemma enable_if_holdable_inv (T : cpp_type) :
  enable_if_holdable T = true -> exists t, T = Val t.
Proof.
  destruct T as [t| | |T|T|T|T|T]; try discriminate; [by exists t|].
  destruct T; discriminate.
Qed.

Lemma holdable_decay (T : cpp_type) :
  enable_if_holdable T = true -> decay T = T.
Proof. intros [t ->]%enable_if_holdable_inv. reflexivity. Qed.

(** *** Casts and cell equality *)

Lemma dynamic_cast_holder t (v : value t) :
  dynamic_cast t (holder t v) = Some v.
Proof.
  unfold dynamic_cast, holder; simpl.
  destruct (decide (t = t)) as [e|]; [|done].
  by rewrite (proof_irrel e eq_refl).
Qed.

Lemma dynamic_cast_other t t' (v : value t) :
  t <> t' -> dynamic_cast t' (holder t v) = None.
Proof.
  intros Hne. unfold dynamic_cast, holder; simpl.
  destruct (decide (t = t')); [contradiction|reflexivity].
Qed.

Lemma dynamic_cast_Some t (o : holder_base) (v : value t) :
  dynamic_cast t o = Some v -> o = holder t v.
Proof.
  destruct o as [t0 v0]. unfold dynamic_cast, holder; simpl.
  destruct (decide (t0 = t)) as [e|]; [|discriminate].
  subst t0; simpl. by intros [= ->].
Qed.

Lemma equals_same t (v w : value t) :
  equals (holder t v) (holder t w) = op_eq t w v.
Proof. unfold equals; simpl. by rewrite dynamic_cast_holder. Qed.

Lemma equals_other t t' (v : value t) (w : value t') :
  t <> t' -> equals (holder t v) (holder t' w) = false.
Proof.
  intros Hne. unfold equals; simpl.
  rewrite dynamic_cast_other; [reflexivity|]. by intros ->.
Qed.

(** *** Heap primitives *)

Lemma sp_acquire_lookup l h (c : cell) :
  h !! l = Some c -> sp_acquire (Some l) h !! l = Some (retain c).
Proof. intros Hl. unfold sp_acquire. by rewrite lookup_alter_eq, Hl. Qed.

Lemma sp_acquire_lookup_ne p l h :
  p <> Some l -> sp_acquire p h !! l = h !! l.
Proof.
  destruct p as [l'|]; [|done]. intros Hne. unfold sp_acquire.
  apply lookup_alter_ne. congruence.
Qed.

Lemma sp_release_lookup_ne p l h :
  p <> Some l -> sp_release p h !! l = h !! l.
Proof.
  destruct p as [l'|]; [|done]. intros Hne.
  assert (l' <> l) by congruence. unfold sp_release.
  destruct (h !! l') as [c|] eqn:Hc; [|done].
  destruct (Pos.eqb (use_count c) 1).
  - by apply lookup_delete_ne.
  - by apply lookup_insert_ne.
Qed.

Lemma sp_release_lookup_shared l h (c : cell) :
  h !! l = Some c -> use_count c <> 1%positive ->
  sp_release (Some l) h !! l = Some (Cell (object c) (Pos.pred (use_count c))).
Proof.
  intros Hl Hn. unfold sp_release. rewrite Hl.
  destruct (Pos.eqb_spec (use_count c) 1); [contradiction|].
  apply lookup_insert_eq.
Qed.

Lemma sp_release_lookup_last l h (c : cell) :
  h !! l = Some c -> use_count c = 1%positive ->
  sp_release (Some l) h !! l = None.
Proof.
  intros Hl Hn. unfold sp_release. rewrite Hl, Hn. simpl.
  apply lookup_delete_eq.
Qed.

Lemma make_shared_fresh (o : holder_base) h :
  h !! (make_shared o h).1 = None.
Proof. simpl. apply not_elem_of_dom, is_fresh. Qed.

Lemma make_shared_lookup (o : holder_base) h :
  (make_shared o h).2 !! (make_shared o h).1 = Some (Cell o 1).
Proof. simpl. apply lookup_insert_eq. Qed.

Lemma make_shared_lookup_old (o : holder_base) h l (c : cell) :
  h !! l = Some c -> (make_shared o h).2 !! l = Some c.
Proof.
  intros Hl. simpl. rewrite lookup_insert_ne; [done|].
  intros <-. pose proof (make_shared_fresh o h) as Hf. simpl in Hf. congruence.
Qed.

(** *** Cells are never written after creation *)

Lemma sp_acquire_object p l h (c c' : cell) :
  h !! l = Some c -> sp_acquire p h !! l = Some c' -> object c' = object c.
Proof.
  intros Hl. destruct (decide (p = Some l)) as [->|Hne].
  - rewrite (sp_acquire_lookup _ _ _ Hl). by intros [= <-].
  - rewrite sp_acquire_lookup_ne, Hl by done. by intros [= <-].
Qed.

Lemma sp_acquire_keeps p l h (c : cell) :
  h !! l = Some c ->
  exists c', sp_acquire p h !! l = Some c' /\ object c' = object c /\
             (use_count c <= use_count c')%positive.
Proof.
  intros Hl. destruct (decide (p = Some l)) as [->|Hne].
  - exists (retain c). rewrite (sp_acquire_lookup _ _ _ Hl).
    repeat split; simpl. lia.
  - exists c. rewrite sp_acquire_lookup_ne, Hl by done.
    repeat split. lia.
Qed.

Lemma sp_release_object p l h (c c' : cell) :
  h !! l = Some c -> sp_release p h !! l = Some c' -> object c' = object c.
Proof.
  intros Hl. destruct (decide (p = Some l)) as [->|Hne].
  - destruct (decide (use_count c = 1%positive)) as [H1|H1].
    + by rewrite (sp_release_lookup_last _ _ _ Hl H1).
    + rewrite (sp_release_lookup_shared _ _ _ Hl H1). by intros [= <-].
  - rewrite sp_release_lookup_ne, Hl by done. by intros [= <-].
Qed.

Lemma _hold_object t (v : value t) h this l (c c' : cell) :
  h !! l = Some c -> (_hold t v h this).1 !! l = Some c' ->
  object c' = object c.
Proof.
  intros Hl. unfold _hold; simpl.
  apply sp_release_object.
  by apply (make_shared_lookup_old (holder t v)) in Hl.
Qed.

(** A usable handle that is given a value refers to the new cell. *)
Lemma _hold_holds t (v : value t) h this :
  valid h this = true ->
  holds (_hold t v h this).1 (_hold t v h this).2 t v.
Proof.
  intros Hv. unfold holds, _hold; simpl.
  rewrite sp_release_lookup_ne, lookup_insert_eq; [done|].
  intros Heq. unfold valid in Hv. rewrite Heq in Hv.
  apply bool_decide_eq_true in Hv as [c Hc].
  pose proof (is_fresh (dom h)) as Hf.
  apply not_elem_of_dom in Hf. congruence.
Qed.

(** *** What the queries answer for a handle whose cell is known *)

Lemma holds_p_ h x t (v : value t) :
  holds h x t v -> exists l, p_ x = Some l.
Proof. unfold holds. destruct (p_ x); [eauto|discriminate]. Qed.

Lemma is_holds h x t (v : value t) :
  holds h x t v -> is_ h x (Val t) = true.
Proof.
  unfold holds, is_. intros ->. simpl.
  rewrite dynamic_cast_holder. by apply bool_decide_eq_true.
Qed.


Lemma as_holds h x t (v : value t) : holds h x t v -> as_ h x t = v.
Proof.
  unfold holds, as_. intros ->. simpl. by rewrite dynamic_cast_holder.
Qed.

Lemma as_or_holds h x t (v def : value t) :
  holds h x t v -> as_or h x t def = v.
Proof.
  unfold holds, as_or. intros ->. simpl. by rewrite dynamic_cast_holder.
Qed.



Lemma _equals_val_holds h x t (v w : value t) :
  holds h x t v -> _equals_val h x t w = op_eq t v w.
Proof.
  intros Hh. destruct (holds_p_ _ _ _ _ Hh) as [l Hl].
  unfold holds in Hh. unfold _equals_val. rewrite Hl in *. rewrite Hh.
  simpl. by rewrite dynamic_cast_holder.
Qed.

Lemma _equals_val_other h x t t' (v : value t) (w : value t') :
  holds h x t v -> t <> t' -> _equals_val h x t' w = false.
Proof.
  intros Hh Hne. destruct (holds_p_ _ _ _ _ Hh) as [l Hl].
  unfold holds in Hh. unfold _equals_val. rewrite Hl in *. rewrite Hh.
  simpl. by rewrite dynamic_cast_other.
Qed.

Lemma _equals_holds h x y (o o' : holder_base) :
  get h (p_ x) = Some o -> get h (p_ y) = Some o' ->
  _equals h x y = equals o o'.
Proof.
  intros Hx Hy. unfold _equals.
  destruct (p_ x) as [l|]; [|discriminate].
  destruct (p_ y) as [r|]; [|discriminate].
  by rewrite Hx, Hy.
Qed.


(** ** C1 *)


(** ** C2 *)


(** ** C3 *)

(** C3: [as<T>] gives the held value when the cell of the handle is a
    [holder<T>]; in every other case (the handle is null, or its cell has
    another type) it gives the caller's default, or the value-initialised
    [T] when none is passed.  Both forms are total. *)
Theorem as_recovers_or_defaults t (def : value t) h x :
  (forall v, holds h x t v -> as_ h x t = v /\ as_or h x t def = v) /\
  ((forall v, ~ holds h x t v) ->
     as_ h x t = default_value t /\ as_or h x t def = def).
Proof.
  split.
  - intros v Hv. split; [by apply as_holds|by apply as_or_holds].
  - intros Hno. unfold as_, as_or.
    destruct (get h (p_ x) ≫= dynamic_cast t) as [w|] eqn:E; [|done].
    exfalso. apply (Hno w). unfold holds.
    destruct (get h (p_ x)) as [o|]; [|discriminate]. simpl in E.
    by apply dynamic_cast_Some in E as ->.
Qed.

(** ** C4 *)

(** Both value assignments leave the handle on a new [holder<T>] with the
    assigned value; [T], being holdable, is its own decayed type. *)
Lemma value_assignment_effect t (v : value t) h this :
  valid h this = true ->
  decay (Val t) = Val t /\
  (assign_cref t v h this).1 = (assign_rref t v h this).1 /\
  holds (assign_rref t v h this).1.1 (assign_rref t v h this).1.2 t v /\
  h !! (make_shared (holder t v) h).1 = None /\
  p_ (assign_rref t v h this).1.2 = Some (make_shared (holder t v) h).1.
Proof.
  intros Hv. pose proof (_hold_holds t v h this Hv) as Hh.
  unfold assign_cref, assign_rref.
  destruct (_hold t v h this) as [h' x'] eqn:E. simpl in *.
  repeat split; try done.
  - apply not_elem_of_dom, is_fresh.
  - unfold _hold in E. simpl in E. by injection E as _ <-.
Qed.

(** [operator=(T&&)] returns the assigned handle; [operator=(const T&)],
    which is selected when the right-hand side is an lvalue, reaches its
    closing brace without a [return]: the assignment has no result. *)
Lemma lvalue_assignment_has_no_result t (v : value t) h this :
  (assign_cref t v h this).2 = NoReturn /\
  (assign_rref t v h this).2 = Return (assign_rref t v h this).1.2.
Proof.
  unfold assign_cref, assign_rref.
  by destruct (_hold t v h this) as [h' x'].
Qed.

(** ** C5 *)

Lemma _equals_sym h x y :
  (forall u (a b : carrier u), val_eq u a b = val_eq u b a) ->
  _equals h x y = _equals h y x.
Proof.
  intros Hsym. unfold _equals.
  destruct (p_ x) as [l|], (p_ y) as [r|]; try reflexivity.
  destruct (get h (Some l)) as [[t v]|], (get h (Some r)) as [[t' w]|];
    try reflexivity.
  destruct (decide (t = t')) as [<-|Hne].
  - change (equals (holder t v) (holder t w) = equals (holder t w) (holder t v)).
    rewrite !equals_same. destruct t as [c|u]; simpl.
    + apply string_eq_sym.
    + apply Hsym.
  - change (equals (holder t v) (holder t' w)
            = equals (holder t' w) (holder t v)).
    rewrite !equals_other; [done|congruence|done].
Qed.

(** C5 (as amended): a handle compares equal to itself when it is empty,
    and otherwise exactly when its value equals itself under the equality
    of its type; handle equality is symmetric whenever the equality of
    the payload types is; two handles with values [v] and [w] of one type
    compare as [w == v] does; two handles with values of different types
    compare unequal. *)
Theorem handle_equality_laws h x y :
  (empty x = true -> eq_var_var h x x = true) /\
  (forall t (v : value t), holds h x t v -> eq_var_var h x x = op_eq t v v) /\
  ((forall u (a b : carrier u), val_eq u a b = val_eq u b a) ->
     eq_var_var h x y = eq_var_var h y x) /\
  (forall t (v w : value t),
     holds h x t v -> holds h y t w -> eq_var_var h x y = op_eq t w v) /\
  (forall t1 t2 (v : value t1) (w : value t2),
     t1 <> t2 -> holds h x t1 v -> holds h y t2 w ->
     eq_var_var h x y = false).
Proof.
  unfold eq_var_var. repeat split.
  - unfold empty, _equals. intros He%bool_decide_eq_true. by rewrite He.
  - intros t v Hx. rewrite (_equals_holds _ _ _ _ _ Hx Hx).
    apply equals_same.
  - intros Hsym. by apply _equals_sym.
  - intros t v w Hx Hy. rewrite (_equals_holds _ _ _ _ _ Hx Hy).
    apply equals_same.
  - intros t1 t2 v w Hne Hx Hy. rewrite (_equals_holds _ _ _ _ _ Hx Hy).
    by apply equals_other.
Qed.

(** ** C7 *)

(** C7: the default-constructed handle, the handle constructed from
    [nullptr] and a handle after [= nullptr] are empty, equal to
    [nullptr] from both sides, and answer [is<nullptr_t>()] with true;
    two empty handles are equal; an empty and a non-empty handle are
    unequal, whichever side the empty one is on and whatever the other
    holds. *)
Theorem empty_handle_laws h x y :
  (empty ctor_default = true /\ eq_var_null ctor_default = true /\
   eq_null_var ctor_default = true /\ is_ h ctor_default nullptr_t = true) /\
  (empty ctor_nullptr = true /\ eq_var_null ctor_nullptr = true /\
   eq_null_var ctor_nullptr = true /\ is_ h ctor_nullptr nullptr_t = true) /\
  (let z := (assign_nullptr h x).1.2 in
   let h' := (assign_nullptr h x).1.1 in
   empty z = true /\ eq_var_null z = true /\
   eq_null_var z = true /\ is_ h' z nullptr_t = true /\
   (assign_nullptr h x).2 = Return z) /\
  (empty x = true -> empty y = true -> eq_var_var h x y = true) /\
  (empty x = true -> empty y = false ->
     eq_var_var h x y = false /\ eq_var_var h y x = false).
Proof.
  split; [done|]. split; [done|]. split; [done|].
  unfold eq_var_var, _equals, empty. split.
  - intros Hx%bool_decide_eq_true Hy%bool_decide_eq_true.
    by rewrite Hx, Hy.
  - intros Hx%bool_decide_eq_true Hy%bool_decide_eq_false.
    rewrite Hx. by destruct (p_ y).
Qed.

(** ** C8 *)

(** C8: a handle constructed from, or assigned, a C-string of either
    width holds a [std::basic_string] of that width with the characters
    of the C-string: [is] answers true at the string type, and the
    handle equals the C-string, from both sides, and the string value
    built from it. *)
Theorem c_string_is_held_as_string (c : CharT) (s : c_str) h x :
  valid h x = true ->
  (let h1 := (ctor_cstr c s h).1 in
   let a := (ctor_cstr c s h).2 in
   holds h1 a (TString c) (basic_string s) /\
   is_ h1 a (Val (TString c)) = true /\
   eq_var_cstr h1 a c s = true /\
   eq_cstr_var h1 c s a = true /\
   eq_var_val h1 a (TString c) (basic_string s) = true) /\
  (let h2 := (assign_cstr c s h x).1.1 in
   let b := (assign_cstr c s h x).1.2 in
   holds h2 b (TString c) (basic_string s) /\
   is_ h2 b (Val (TString c)) = true /\
   eq_var_cstr h2 b c s = true /\
   eq_cstr_var h2 c s b = true /\
   eq_var_val h2 b (TString c) (basic_string s) = true /\
   (assign_cstr c s h x).2 = Return b).
Proof.
  intros Hv.
  assert (forall h' z, holds h' z (TString c) (basic_string s) ->
            is_ h' z (Val (TString c)) = true /\
            eq_var_cstr h' z c s = true /\
            eq_cstr_var h' c s z = true /\
            eq_var_val h' z (TString c) (basic_string s) = true) as Hall.
  { intros h' z Hz. split; [by eapply is_holds|].
    unfold eq_var_cstr, eq_cstr_var, eq_var_val.
    rewrite (_equals_val_holds _ _ _ _ _ Hz). simpl.
    by rewrite string_eq_refl. }
  split.
  - assert (holds (ctor_cstr c s h).1 (ctor_cstr c s h).2
              (TString c) (basic_string s)) as Hh
      by (by apply _hold_holds).
    split; [done|]. by apply Hall.
  - pose proof (_hold_holds (TString c) (basic_string s) h x Hv) as Hh.
    unfold assign_cstr.
    destruct (_hold (TString c) (basic_string s) h x) as [h' x'].
    simpl in *. split; [done|].
    destruct (Hall _ _ Hh) as (? & ? & ? & ?). done.
Qed.

(** ** C9 *)

Lemma _equals_sym_at h x y :
  (forall t (a b : value t),
     holds h x t a -> holds h y t b -> op_eq t a b = op_eq t b a) ->
  _equals h x y = _equals h y x.
Proof.
  intros Hsym. unfold _equals.
  destruct (p_ x) as [l|] eqn:Ex, (p_ y) as [r|] eqn:Ey; try reflexivity.
  destruct (get h (Some l)) as [[t v]|] eqn:Hl,
           (get h (Some r)) as [[t' w]|] eqn:Hr; try reflexivity.
  destruct (decide (t = t')) as [<-|Hne].
  - change (equals (holder t v) (holder t w) = equals (holder t w) (holder t v)).
    rewrite !equals_same. symmetry. apply Hsym.
    + unfold holds. by rewrite Ex.
    + unfold holds. by rewrite Ey.
  - change (equals (holder t v) (holder t' w)
            = equals (holder t' w) (holder t v)).
    rewrite !equals_other; [done|congruence|done].
Qed.

(** C9 (as amended): every comparison operator is a total boolean
    function and each [!=] is the negation of the matching [==].  For a
    handle against a value, against [nullptr] and against a C-string the
    two argument orders agree.  For two handles [x == y] and [y == x]
    agree whenever the two held values, when they are of one type,
    compare the same in both orders under the equality of that type; so
    they agree for every pair of handles when the equality of the payload
    types is symmetric. *)
Theorem comparison_family_laws
    h x y t (v : value t) (c : CharT) (s : c_str) :
  ((forall t' (a b : value t'),
      holds h x t' a -> holds h y t' b -> op_eq t' a b = op_eq t' b a) ->
   eq_var_var h x y = eq_var_var h y x /\
   ne_var_var h x y = ne_var_var h y x) /\
  ((forall u (a b : carrier u), val_eq u a b = val_eq u b a) ->
   eq_var_var h x y = eq_var_var h y x /\
   ne_var_var h x y = ne_var_var h y x) /\
  ne_var_var h x y = negb (eq_var_var h x y) /\
  (eq_val_var h t v x = eq_var_val h x t v /\
   ne_var_val h x t v = negb (eq_var_val h x t v) /\
   ne_val_var h t v x = negb (eq_val_var h t v x) /\
   ne_val_var h t v x = ne_var_val h x t v) /\
  (eq_null_var x = eq_var_null x /\
   ne_var_null x = negb (eq_var_null x) /\
   ne_null_var x = negb (eq_null_var x) /\
   ne_null_var x = ne_var_null x) /\
  (eq_cstr_var h c s x = eq_var_cstr h x c s /\
   ne_var_cstr h x c s = negb (eq_var_cstr h x c s) /\
   ne_cstr_var h c s x = negb (eq_cstr_var h c s x) /\
   ne_cstr_var h c s x = ne_var_cstr h x c s).
Proof.
  split; [|split].
  - intros Hsym. unfold eq_var_var, ne_var_var.
    by rewrite (_equals_sym_at h x y Hsym).
  - intros Hsym. unfold eq_var_var, ne_var_var.
    by rewrite (_equals_sym h x y Hsym).
  - repeat split.
Qed.

(** *** Move assignment *)

(** [p_.swap(rhs.p_)]: the two references change places and the heap is
    not touched. *)
Lemma assign_move_swaps h a b :
  let h' := (assign_move h b a).1.1.1 in
  let b' := (assign_move h b a).1.1.2 in
  let a' := (assign_move h b a).1.2 in
  h' = h /\
  p_ b' = p_ a /\
  p_ a' = p_ b /\
  (assign_move h b a).2 = Return b' /\
  empty a' = empty b /\
  valid h' a' = valid h b.
Proof. simpl. by repeat split. Qed.

End Properties.

(** * Sharing: reference counts and the frame of a statement *)
Section Sharing.

Context {P : Payload}.

Implicit Types (h : gmap loc cell) (hs : list shared_var) (l : loc)
  (p q : option loc) (σ : program_state).

Lemma points_None l : points None l = 0.
Proof. reflexivity. Qed.

Lemma points_1 p l : points p l = 1 <-> p = Some l.
Proof. unfold points. destruct (decide (p = Some l)); split; done. Qed.

Lemma points_same l : points (Some l) l = 1.
Proof. by apply points_1. Qed.

(** *** Counting handles *)

Lemma refs_app l hs hs' : refs l (hs ++ hs') = refs l hs + refs l hs'.
Proof. induction hs as [|x hs IH]; simpl; [done|]. rewrite IH. lia. Qed.

Lemma refs_insert l hs i (x x' : shared_var) :
  hs !! i = Some x ->
  refs l (<[i := x']> hs) + points (p_ x) l = refs l hs + points (p_ x') l.
Proof.
  revert i. induction hs as [|y hs IH]; intros [|i] Hi; simpl in *; try done.
  - injection Hi as ->. lia.
  - specialize (IH i Hi). lia.
Qed.

Lemma refs_lookup l hs i (x : shared_var) :
  hs !! i = Some x -> points (p_ x) l <= refs l hs.
Proof.
  revert i. induction hs as [|y hs IH]; intros [|i] Hi; simpl in *; try done.
  - injection Hi as ->. lia.
  - specialize (IH i Hi). lia.
Qed.

Lemma refs_lookup2 l hs i k (x x' : shared_var) :
  i <> k -> hs !! i = Some x -> hs !! k = Some x' ->
  points (p_ x) l + points (p_ x') l <= refs l hs.
Proof.
  intros Hne Hi Hk.
  pose proof (refs_insert l hs i x (Handle None) Hi) as Hins.
  assert (<[i := Handle None]> hs !! k = Some x') as Hk'
    by (by rewrite list_lookup_insert_ne).
  pose proof (refs_lookup l _ k x' Hk') as Hle.
  simpl in Hins. rewrite points_None in Hins. lia.
Qed.

(** *** Counting owners *)

Lemma owners_Some h l (c : cell) :
  h !! l = Some c -> owners h l = Pos.to_nat (use_count c).
Proof. unfold owners. by intros ->. Qed.

Lemma owners_positive h l : 0 < owners h l -> exists c, h !! l = Some c.
Proof. unfold owners. destruct (h !! l) as [c|]; [eauto|lia]. Qed.

Lemma owners_acquire p l h :
  (p = Some l -> 0 < owners h l) ->
  owners (sp_acquire p h) l = owners h l + points p l.
Proof.
  intros Hlive. unfold points. destruct (decide (p = Some l)) as [->|Hne].
  - destruct (owners_positive h l (Hlive eq_refl)) as [c Hc].
    rewrite (owners_Some _ _ _ (sp_acquire_lookup _ _ _ Hc)).
    rewrite (owners_Some _ _ _ Hc). simpl. lia.
  - unfold owners. rewrite sp_acquire_lookup_ne by done. lia.
Qed.

Lemma owners_release p l h :
  owners (sp_release p h) l = owners h l - points p l.
Proof.
  unfold points. destruct (decide (p = Some l)) as [->|Hne].
  - destruct (h !! l) as [c|] eqn:Hc.
    + rewrite (owners_Some _ _ _ Hc).
      destruct (decide (use_count c = 1%positive)) as [H1|H1].
      * unfold owners. rewrite (sp_release_lookup_last _ _ _ Hc H1). lia.
      * rewrite (owners_Some _ _ _ (sp_release_lookup_shared _ _ _ Hc H1)).
        simpl. lia.
    + unfold owners, sp_release. by rewrite Hc, Hc.
  - unfold owners. rewrite sp_release_lookup_ne by done. lia.
Qed.

Lemma owners_make_shared (o : holder_base) h l :
  owners (make_shared o h).2 l
  = owners h l + points (Some (make_shared o h).1) l.
Proof.
  destruct (decide (l = (make_shared o h).1)) as [->|Hne].
  - rewrite points_same.
    rewrite (owners_Some _ _ _ (make_shared_lookup o h)).
    unfold owners at 1. rewrite make_shared_fresh. reflexivity.
  - unfold points. destruct (decide (Some (make_shared o h).1 = Some l));
      [congruence|].
    unfold owners. simpl. rewrite lookup_insert_ne by (simpl in Hne; congruence).
    lia.
Qed.

(** *** Reading through a pointer after a heap operation *)

Lemma get_acquire p h q : get (sp_acquire p h) q = get h q.
Proof.
  destruct q as [l|]; [|done]. destruct p as [l'|]; [|done]. simpl.
  destruct (decide (l' = l)) as [->|Hne].
  - rewrite lookup_alter_eq. by destruct (h !! l).
  - by rewrite lookup_alter_ne.
Qed.

Lemma get_make_shared (o : holder_base) h l :
  0 < owners h l -> get (make_shared o h).2 (Some l) = get h (Some l).
Proof.
  intros [c Hc]%owners_positive. unfold get.
  by rewrite (make_shared_lookup_old o h l c Hc), Hc.
Qed.

Lemma get_release p h l :
  points p l + 1 <= owners h l ->
  get (sp_release p h) (Some l) = get h (Some l).
Proof.
  intros Hle. unfold points in Hle.
  destruct (decide (p = Some l)) as [->|Hne].
  - destruct (owners_positive h l) as [c Hc]; [lia|].
    rewrite (owners_Some _ _ _ Hc) in Hle. unfold get.
    rewrite (sp_release_lookup_shared _ _ _ Hc) by lia. by rewrite Hc.
  - unfold get. by rewrite sp_release_lookup_ne.
Qed.

(** *** The effect of the operations on the counts *)

Lemma assign_cstr_hold c (s : c_str) h (x : shared_var) :
  (assign_cstr c s h x).1 = _hold (TString c) (basic_string s) h x.
Proof.
  unfold assign_cstr. by destruct (_hold (TString c) (basic_string s) h x).
Qed.

Lemma assign_cref_hold (t : tag) (v : value t) h (x : shared_var) :
  (assign_cref t v h x).1 = _hold t v h x.
Proof. unfold assign_cref. by destruct (_hold t v h x). Qed.

Lemma assign_rref_hold (t : tag) (v : value t) h (x : shared_var) :
  (assign_rref t v h x).1 = _hold t v h x.
Proof. unfold assign_rref. by destruct (_hold t v h x). Qed.

(** An assignment statement by cases: every operator but
    [operator=(const T&)] comes back with [*this]; that one never does. *)
Lemma assign_to_unfold i (o : operand) σ :
  assign_to i o σ
  = xi ← handles σ !! i;
    match o with
    | OHandle j =>
        xj ← handles σ !! j;
        let r := (assign_copy (heap σ) xi xj).1 in
        Some (State r.1 (<[i := r.2]> (handles σ)))
    | OMoved j =>
        xj ← handles σ !! j;
        let r := (assign_move (heap σ) xi xj).1 in
        Some (State r.1.1 (<[j := r.2]> (<[i := r.1.2]> (handles σ))))
    | ONullptr =>
        let r := (assign_nullptr (heap σ) xi).1 in
        Some (State r.1 (<[i := r.2]> (handles σ)))
    | OCStr c s =>
        let r := (assign_cstr c s (heap σ) xi).1 in
        Some (State r.1 (<[i := r.2]> (handles σ)))
    | OLvalue t v => None
    | ORvalue t v =>
        let r := (assign_rref t v (heap σ) xi).1 in
        Some (State r.1 (<[i := r.2]> (handles σ)))
    end.
Proof.
  unfold assign_to. destruct (handles σ !! i) as [xi|]; [|done].
  cbn [mbind option_bind].
  destruct o as [j|j| |c s|t v|t v]; reflexivity.
Qed.

Lemma owners_hold (t : tag) (v : value t) h (this : shared_var) l :
  points (p_ this) l <= owners h l ->
  owners (_hold t v h this).1 l + points (p_ this) l
  = owners h l + points (p_ (_hold t v h this).2) l.
Proof.
  intros Hle. unfold _hold; simpl.
  rewrite owners_release.
  pose proof (owners_make_shared (holder t v) h l) as Hm. simpl in Hm.
  rewrite Hm. lia.
Qed.

Lemma owners_assign_copy h (this rhs : shared_var) l :
  points (p_ this) l <= owners h l -> points (p_ rhs) l <= owners h l ->
  owners (assign_copy h this rhs).1.1 l + points (p_ this) l
  = owners h l + points (p_ (assign_copy h this rhs).1.2) l.
Proof.
  intros Hthis Hrhs. unfold assign_copy; simpl.
  rewrite owners_release, owners_acquire; [lia|].
  intros E. apply points_1 in E. lia.
Qed.

Lemma get_hold (t : tag) (v : value t) h (this : shared_var) l :
  points (p_ this) l + 1 <= owners h l ->
  get (_hold t v h this).1 (Some l) = get h (Some l).
Proof.
  intros Hle.
  change (_hold t v h this).1
    with (sp_release (p_ this) (make_shared (holder t v) h).2).
  pose proof (owners_make_shared (holder t v) h l) as Hm.
  rewrite get_release by lia.
  apply (get_make_shared (holder t v)). lia.
Qed.

Lemma get_assign_copy h (this rhs : shared_var) l :
  points (p_ this) l + 1 <= owners h l ->
  get (assign_copy h this rhs).1.1 (Some l) = get h (Some l).
Proof.
  intros Hle.
  change (assign_copy h this rhs).1.1
    with (sp_release (p_ this) (sp_acquire (p_ rhs) h)).
  rewrite get_release, get_acquire; [done|].
  rewrite owners_acquire; [lia|]. intros _. lia.
Qed.

(** *** The invariant *)

Lemma counted_lookup σ i (x : shared_var) l :
  counted σ -> handles σ !! i = Some x ->
  points (p_ x) l <= owners (heap σ) l.
Proof. intros Hc Hi. rewrite (Hc l). by eapply refs_lookup. Qed.

Lemma counted_lookup2 σ i k (x x' : shared_var) l :
  counted σ -> i <> k ->
  handles σ !! i = Some x -> handles σ !! k = Some x' ->
  points (p_ x) l + points (p_ x') l <= owners (heap σ) l.
Proof. intros Hc Hne Hi Hk. rewrite (Hc l). by eapply refs_lookup2. Qed.

(** a handle of a counted state is null or refers to a live cell *)
Lemma counted_valid σ i (x : shared_var) :
  counted σ -> handles σ !! i = Some x -> valid (heap σ) x = true.
Proof.
  intros Hc Hi. unfold valid. destruct (p_ x) as [l|] eqn:E; [|done].
  apply bool_decide_eq_true.
  pose proof (counted_lookup σ i x l Hc Hi) as Hle.
  rewrite E, points_same in Hle.
  destruct (owners_positive (heap σ) l) as [c Hl]; [lia|]. eauto.
Qed.

Lemma counted_replace σ i (x x' : shared_var) h' :
  counted σ -> handles σ !! i = Some x ->
  (forall l, owners h' l + points (p_ x) l
             = owners (heap σ) l + points (p_ x') l) ->
  counted (State h' (<[i := x']> (handles σ))).
Proof.
  intros Hc Hi Hbal l. simpl.
  pose proof (refs_insert l (handles σ) i x x' Hi) as Hins.
  specialize (Hbal l). rewrite (Hc l) in Hbal. lia.
Qed.

Lemma counted_append σ (x' : shared_var) h' :
  counted σ ->
  (forall l, owners h' l = owners (heap σ) l + points (p_ x') l) ->
  counted (State h' (handles σ ++ [x'])).
Proof.
  intros Hc Hbal l. simpl. rewrite refs_app, Hbal, (Hc l). simpl. lia.
Qed.

Lemma counted_initial : counted initial.
Proof. intros l. reflexivity. Qed.

Lemma counted_construct (o : operand) σ σ' :
  counted σ -> construct o σ = Some σ' -> counted σ'.
Proof.
  intros Hc. destruct o as [j|j| |c s|t v|t v]; simpl.
  - destruct (handles σ !! j) as [xj|] eqn:Hj; [|done]. intros [= <-].
    apply counted_append; [done|]. intros l. simpl.
    apply owners_acquire. intros E.
    pose proof (counted_lookup σ j xj l Hc Hj) as Hle.
    rewrite E, points_same in Hle. lia.
  - destruct (handles σ !! j) as [xj|] eqn:Hj; [|done]. intros [= <-].
    intros l. simpl. rewrite refs_app. simpl.
    pose proof (refs_insert l (handles σ) j xj (Handle None) Hj) as Hins.
    simpl in Hins. rewrite points_None in Hins. rewrite (Hc l). lia.
  - intros [= <-]. apply counted_append; [done|]. intros l; simpl.
    rewrite points_None. lia.
  - intros [= <-]. apply counted_append; [done|]. intros l.
    pose proof (owners_hold (TString c) (basic_string s) (heap σ)
                  (Handle None) l) as Ho.
    simpl in Ho. rewrite points_None in Ho. unfold ctor_cstr. simpl. lia.
  - intros [= <-]. apply counted_append; [done|]. intros l.
    pose proof (owners_hold t v (heap σ) (Handle None) l) as Ho.
    simpl in Ho. rewrite points_None in Ho. unfold ctor_cref. simpl. lia.
  - intros [= <-]. apply counted_append; [done|]. intros l.
    pose proof (owners_hold t v (heap σ) (Handle None) l) as Ho.
    simpl in Ho. rewrite points_None in Ho. unfold ctor_rref. simpl. lia.
Qed.

Lemma counted_assign_to i (o : operand) σ σ' :
  counted σ -> assign_to i o σ = Some σ' -> counted σ'.
Proof.
  intros Hc. rewrite assign_to_unfold.
  destruct (handles σ !! i) as [xi|] eqn:Hi; [|done].
  cbn [mbind option_bind].
  destruct o as [j|j| |c s|t v|t v]; cbv zeta.
  - destruct (handles σ !! j) as [xj|] eqn:Hj; [|done].
    cbn [mbind option_bind]. intros [= <-].
    apply (counted_replace σ i xi); [done..|]. intros l.
    apply (owners_assign_copy (heap σ) xi xj l); by eapply counted_lookup.
  - destruct (handles σ !! j) as [xj|] eqn:Hj; [|done].
    cbn [mbind option_bind]. intros [= <-].
    intros l. simpl.
    pose proof (refs_insert l (handles σ) i xi (Handle (p_ xj)) Hi) as H1.
    simpl in H1. rewrite (Hc l).
    destruct (decide (i = j)) as [->|Hne].
    + assert (xi = xj) as -> by congruence.
      assert (<[j := Handle (p_ xj)]> (handles σ) !! j
              = Some (Handle (p_ xj))) as Hj'.
      { apply list_lookup_insert_eq. by eapply lookup_lt_Some. }
      pose proof (refs_insert l _ j _ (Handle (p_ xj)) Hj') as H2.
      simpl in H2. lia.
    + assert (<[i := Handle (p_ xj)]> (handles σ) !! j = Some xj) as Hj'
        by (by rewrite list_lookup_insert_ne).
      pose proof (refs_insert l _ j xj (Handle (p_ xi)) Hj') as H2.
      simpl in H2. lia.
  - intros [= <-]. apply (counted_replace σ i xi); [done..|]. intros l.
    simpl. rewrite owners_release, points_None.
    pose proof (counted_lookup σ i xi l Hc Hi). lia.
  - rewrite assign_cstr_hold. intros [= <-].
    apply (counted_replace σ i xi); [done..|]. intros l.
    apply owners_hold. by eapply counted_lookup.
  - done.
  - rewrite assign_rref_hold. intros [= <-].
    apply (counted_replace σ i xi); [done..|]. intros l.
    apply owners_hold. by eapply counted_lookup.
Qed.

Lemma counted_destroy i σ σ' :
  counted σ -> destroy i σ = Some σ' -> counted σ'.
Proof.
  intros Hc. unfold destroy.
  destruct (handles σ !! i) as [xi|] eqn:Hi; [|done]. simpl. intros [= <-].
  apply (counted_replace σ i xi); [done..|]. intros l.
  simpl. rewrite owners_release, points_None.
  pose proof (counted_lookup σ i xi l Hc Hi). lia.
Qed.

(** Every statement keeps the counts exact. *)
Lemma counted_exec (s : statement) σ σ' :
  counted σ -> exec s σ = Some σ' -> counted σ'.
Proof.
  intros Hc. destruct s as [|o|i o|i]; simpl.
  - intros [= <-]. apply counted_append; [done|]. intros l; simpl.
    rewrite points_None. lia.
  - by apply counted_construct.
  - by apply counted_assign_to.
  - by apply counted_destroy.
Qed.

Lemma counted_run (prog : list statement) σ σ' :
  counted σ -> run prog σ = Some σ' -> counted σ'.
Proof.
  revert σ. induction prog as [|s prog IH]; intros σ Hc; simpl.
  - by intros [= <-].
  - destruct (exec s σ) as [σ1|] eqn:E; [|done]. simpl.
    apply IH. by eapply counted_exec.
Qed.

(** *** The frame of a statement *)

Lemma get_unshared σ i k (xi x : shared_var) h' :
  counted σ -> i <> k ->
  handles σ !! i = Some xi -> handles σ !! k = Some x ->
  (forall l, points (p_ xi) l + 1 <= owners (heap σ) l ->
             get h' (Some l) = get (heap σ) (Some l)) ->
  get h' (p_ x) = get (heap σ) (p_ x).
Proof.
  intros Hc Hne Hi Hk Hget. destruct (p_ x) as [l|] eqn:E; [|done].
  apply Hget.
  pose proof (counted_lookup2 σ i k xi x l Hc Hne Hi Hk) as Hle.
  rewrite E, points_same in Hle. lia.
Qed.

Lemma get_fresh_hold σ k (x : shared_var) (t : tag) (v : value t) :
  counted σ -> handles σ !! k = Some x ->
  get (_hold t v (heap σ) (Handle None)).1 (p_ x) = get (heap σ) (p_ x).
Proof.
  intros Hc Hk. destruct (p_ x) as [l|] eqn:E; [|done].
  apply get_hold.
  pose proof (counted_lookup σ k x l Hc Hk) as Hle.
  rewrite E, points_same in Hle.
  change (points (p_ (Handle None)) l) with 0. lia.
Qed.

(** The handles a statement does not write keep their reference and their
    cell, with the object it had. *)
Lemma exec_frame (s : statement) σ σ' k (x : shared_var) :
  counted σ -> exec s σ = Some σ' -> k ∉ writes s ->
  handles σ !! k = Some x ->
  handles σ' !! k = Some x /\ get (heap σ') (p_ x) = get (heap σ) (p_ x).
Proof.
  intros Hc He Hk Hx.
  assert (forall z, (handles σ ++ [z]) !! k = Some x) as Happ.
  { intros z. rewrite lookup_app_l; [done|]. by eapply lookup_lt_Some. }
  destruct s as [|o|i o|i]; simpl in He.
  - injection He as <-. by split; [apply Happ|].
  - destruct o as [j|j| |c s|t v|t v]; simpl in He.
    + destruct (handles σ !! j) as [xj|] eqn:Hj; [|done].
      injection He as <-. split; [apply Happ|]. apply get_acquire.
    + destruct (handles σ !! j) as [xj|] eqn:Hj; [|done].
      injection He as <-. simpl. split; [|done].
      assert (j <> k) as Hne by (simpl in Hk; set_solver).
      rewrite lookup_app_l.
      * by rewrite list_lookup_insert_ne.
      * rewrite length_insert. by eapply lookup_lt_Some.
    + injection He as <-. by split; [apply Happ|].
    + injection He as <-. split; [apply Happ|]. by eapply get_fresh_hold.
    + injection He as <-. split; [apply Happ|]. by eapply get_fresh_hold.
    + injection He as <-. split; [apply Happ|]. by eapply get_fresh_hold.
  - rewrite assign_to_unfold in He.
    destruct (handles σ !! i) as [xi|] eqn:Hi; [|done].
    cbn [mbind option_bind] in He.
    destruct o as [j|j| |c s|t v|t v]; cbv zeta in He.
    + destruct (handles σ !! j) as [xj|] eqn:Hj; [|done].
      cbn [mbind option_bind] in He. injection He as <-.
      assert (i <> k) as Hne by (simpl in Hk; set_solver).
      cbn [handles heap]. split; [by rewrite list_lookup_insert_ne|].
      apply (get_unshared σ i k xi x); try done.
      intros l Hl. by apply get_assign_copy.
    + destruct (handles σ !! j) as [xj|] eqn:Hj; [|done].
      cbn [mbind option_bind] in He. injection He as <-.
      assert (i <> k /\ j <> k) as [Hne Hne'] by (simpl in Hk; set_solver).
      split; [|done]. simpl. by rewrite !list_lookup_insert_ne.
    + injection He as <-.
      assert (i <> k) as Hne by (simpl in Hk; set_solver).
      cbn [handles heap]. split; [by rewrite list_lookup_insert_ne|].
      apply (get_unshared σ i k xi x); try done.
      intros l Hl. by apply get_release.
    + rewrite assign_cstr_hold in He. injection He as <-.
      assert (i <> k) as Hne by (simpl in Hk; set_solver).
      cbn [handles heap]. split; [by rewrite list_lookup_insert_ne|].
      apply (get_unshared σ i k xi x); try done.
      intros l Hl. by apply get_hold.
    + done.
    + rewrite assign_rref_hold in He. injection He as <-.
      assert (i <> k) as Hne by (simpl in Hk; set_solver).
      cbn [handles heap]. split; [by rewrite list_lookup_insert_ne|].
      apply (get_unshared σ i k xi x); try done.
      intros l Hl. by apply get_hold.
  - unfold destroy in He.
    destruct (handles σ !! i) as [xi|] eqn:Hi; [|done].
    cbn [mbind option_bind] in He. injection He as <-.
    assert (i <> k) as Hne by (simpl in Hk; set_solver).
    cbn [handles heap]. split; [by rewrite list_lookup_insert_ne|].
    apply (get_unshared σ i k xi x); try done.
    intros l Hl. by apply get_release.
Qed.

(** No statement writes to a cell that exists: where a location is live
    before and after, its object is the same. *)
Lemma exec_never_writes_cell (s : statement) σ σ' l (c c' : cell) :
  exec s σ = Some σ' ->
  heap σ !! l = Some c -> heap σ' !! l = Some c' -> object c' = object c.
Proof.
  intros He Hl.
  destruct s as [|o|i o|i]; simpl in He.
  - injection He as <-. simpl. rewrite Hl. by intros [= <-].
  - destruct o as [j|j| |c0 s|t v|t v]; simpl in He.
    + destruct (handles σ !! j) as [xj|]; [|done]. injection He as <-.
      by apply sp_acquire_object.
    + destruct (handles σ !! j) as [xj|]; [|done]. injection He as <-.
      simpl. rewrite Hl. by intros [= <-].
    + injection He as <-. simpl. rewrite Hl. by intros [= <-].
    + injection He as <-.
      by apply (_hold_object (TString c0) (basic_string s) _ (Handle None)).
    + injection He as <-. by apply (_hold_object t v _ (Handle None)).
    + injection He as <-. by apply (_hold_object t v _ (Handle None)).
  - rewrite assign_to_unfold in He.
    destruct (handles σ !! i) as [xi|]; [|done].
    cbn [mbind option_bind] in He.
    destruct o as [j|j| |c0 s|t v|t v]; cbv zeta in He.
    + destruct (handles σ !! j) as [xj|]; [|done].
      cbn [mbind option_bind] in He. injection He as <-.
      change (heap (State (assign_copy (heap σ) xi xj).1.1
                      (<[i:=(assign_copy (heap σ) xi xj).1.2]> (handles σ))))
        with (sp_release (p_ xi) (sp_acquire (p_ xj) (heap σ))).
      destruct (sp_acquire_keeps (p_ xj) l (heap σ) c Hl) as (c1 & H1 & Ho & _).
      intros H2. rewrite <- Ho. by eapply sp_release_object.
    + destruct (handles σ !! j) as [xj|]; [|done].
      cbn [mbind option_bind] in He. injection He as <-.
      simpl. rewrite Hl. by intros [= <-].
    + injection He as <-. by apply sp_release_object.
    + rewrite assign_cstr_hold in He. injection He as <-.
      by apply _hold_object.
    + done.
    + rewrite assign_rref_hold in He. injection He as <-.
      by apply _hold_object.
  - unfold destroy in He.
    destruct (handles σ !! i) as [xi|]; [|done].
    cbn [mbind option_bind] in He. injection He as <-.
    by apply sp_release_object.
Qed.

(** *** Copies *)

Lemma copy_made σ σ1 a b (xa : shared_var) (copy : statement) :
  counted σ -> handles σ !! a = Some xa ->
  (copy = Init (OHandle a) /\ b = length (handles σ)) \/
  (copy = Assign b (OHandle a) /\ a <> b) ->
  exec copy σ = Some σ1 ->
  a <> b /\ counted σ1 /\
  handles σ1 !! a = Some xa /\
  handles σ1 !! b = Some (Handle (p_ xa)) /\
  get (heap σ1) (p_ xa) = get (heap σ) (p_ xa).
Proof.
  intros Hc Ha Hcopy He.
  pose proof (counted_exec copy σ σ1 Hc He) as Hc1.
  pose proof (lookup_lt_Some _ _ _ Ha) as Hlt.
  assert (a <> b) as Hne by (destruct Hcopy as [[_ ->]|[_ ?]]; [lia|done]).
  assert (a ∉ writes copy) as Hw.
  { destruct Hcopy as [[-> _]|[-> _]]; simpl.
    - apply not_elem_of_nil.
    - apply not_elem_of_cons. split; [done|apply not_elem_of_nil]. }
  destruct (exec_frame copy σ σ1 a xa Hc He Hw Ha) as [Ha1 Hget].
  repeat split; try done.
  destruct Hcopy as [[-> ->]|[-> _]]; simpl in He.
  - rewrite Ha in He. simpl in He. injection He as <-. simpl.
    by apply list_lookup_middle.
  - rewrite assign_to_unfold in He.
    destruct (handles σ !! b) as [xb|] eqn:Hb; [|done].
    cbn [mbind option_bind] in He. rewrite Ha in He.
    cbn [mbind option_bind] in He. injection He as <-.
    cbn [handles]. apply list_lookup_insert_eq. by eapply lookup_lt_Some.
Qed.

Lemma reassign_keeps_copy σ1 σ2 a b (xa : shared_var) (o : operand) :
  counted σ1 -> a <> b ->
  handles σ1 !! a = Some xa -> handles σ1 !! b = Some (Handle (p_ xa)) ->
  exec (Assign a o) σ1 = Some σ2 ->
  content σ2 b = get (heap σ1) (p_ xa).
Proof.
  intros Hc Hne Ha Hb He.
  assert (b ∈ writes (Assign a o) -> o = OMoved b) as Hmoved.
  { destruct o as [j|j| |c s|t v|t v]; simpl; intros Hin;
      apply elem_of_cons in Hin as [Hin|Hin]; try congruence;
      try (by apply elem_of_nil in Hin).
    apply elem_of_cons in Hin as [->|Hin]; [done|].
    by apply elem_of_nil in Hin. }
  destruct (decide (b ∈ writes (Assign a o))) as [Hin|Hout].
  - rewrite (Hmoved Hin) in He. simpl in He. rewrite assign_to_unfold in He.
    rewrite Ha in He. cbn [mbind option_bind] in He.
    rewrite Hb in He. cbn [mbind option_bind] in He.
    injection He as <-. unfold content. cbn [handles heap].
    rewrite list_lookup_insert_eq; [done|].
    rewrite length_insert. by eapply lookup_lt_Some.
  - destruct (exec_frame _ σ1 σ2 b _ Hc He Hout Hb) as [Hb2 Hget].
    unfold content. rewrite Hb2. exact Hget.
Qed.

(** ** C6 *)

(** C6 (as amended): in any state that a program reaches from the empty
    one, let the handle [a] hold [v] and let [b] become a copy of it, by
    [shared_var b(a);] or by [b = a;].  Then [b] holds [v]; [b == a] and
    [b == v] return what [v == v] returns under the equality of the type;
    and after any assignment to [a] (of a value, a C-string, [nullptr], or
    another handle, by copy or by move) [b] still holds [v].  No statement
    at all writes to a cell that exists. *)
Theorem copy_is_unaffected_by_reassignment
    (prog : list statement) σ σ1 a b (xa : shared_var) t (v : value t)
    (copy : statement) :
  run prog initial = Some σ ->
  handles σ !! a = Some xa -> holds (heap σ) xa t v ->
  (copy = Init (OHandle a) /\ b = length (handles σ)) \/
  (copy = Assign b (OHandle a) /\ a <> b) ->
  exec copy σ = Some σ1 ->
  let xb := Handle (p_ xa) in
  handles σ1 !! a = Some xa /\
  handles σ1 !! b = Some xb /\
  content σ1 b = Some (holder t v) /\
  eq_var_var (heap σ1) xb xa = op_eq t v v /\
  eq_var_val (heap σ1) xb t v = op_eq t v v /\
  (forall o σ2, exec (Assign a o) σ1 = Some σ2 ->
     content σ2 b = Some (holder t v)) /\
  (forall s σ2 l (c c' : cell), exec s σ1 = Some σ2 ->
     heap σ1 !! l = Some c -> heap σ2 !! l = Some c' -> object c' = object c).
Proof.
  intros Hrun Ha Hv Hcopy He xb.
  pose proof (counted_run prog initial σ counted_initial Hrun) as Hc.
  destruct (copy_made σ σ1 a b xa copy Hc Ha Hcopy He)
    as (Hne & Hc1 & Ha1 & Hb1 & Hget).
  assert (holds (heap σ1) xa t v) as Hva by (unfold holds; congruence).
  assert (holds (heap σ1) xb t v) as Hvb by exact Hva.
  split; [done|]. split; [done|]. split.
  { unfold content. by rewrite Hb1. }
  split.
  { unfold eq_var_var. rewrite (_equals_holds _ _ _ _ _ Hvb Hva).
    apply equals_same. }
  split; [by apply _equals_val_holds|]. split.
  - intros o σ2 He2.
    by rewrite (reassign_keeps_copy σ1 σ2 a b xa o Hc1 Hne Ha1 Hb1 He2).
  - intros s σ2 l c c'. apply exec_never_writes_cell.
Qed.

(** ** C10 *)

(** C10: in any state that a program reaches, [b = std::move(a);]
    exchanges the two references: afterwards [a] refers to the former cell
    of [b] and [b] to the former cell of [a]; the heap is the same, so no
    cell is released and every count stays exact; [a] is empty afterwards
    exactly when [b] was empty before; the result is the assigned handle. *)
Theorem move_assignment_swaps
    (prog : list statement) σ σ' a b (xa xb : shared_var) :
  run prog initial = Some σ ->
  handles σ !! a = Some xa -> handles σ !! b = Some xb ->
  exec (Assign b (OMoved a)) σ = Some σ' ->
  heap σ' = heap σ /\
  handles σ' !! a = Some (Handle (p_ xb)) /\
  content σ' a = content σ b /\
  content σ' b = content σ a /\
  empty (Handle (p_ xb)) = empty xb /\
  counted σ' /\
  (assign_move (heap σ) xb xa).2 = Return (Handle (p_ xa)).
Proof.
  intros Hrun Ha Hb He.
  pose proof (counted_run prog initial σ counted_initial Hrun) as Hc.
  pose proof (counted_exec _ σ σ' Hc He) as Hc'.
  pose proof (lookup_lt_Some _ _ _ Ha) as Hla.
  pose proof (lookup_lt_Some _ _ _ Hb) as Hlb.
  simpl in He. rewrite assign_to_unfold in He.
  rewrite Hb in He. cbn [mbind option_bind] in He.
  rewrite Ha in He. cbn [mbind option_bind] in He.
  injection He as <-. unfold content. cbn [heap handles]. simpl.
  assert (<[a := Handle (p_ xb)]> (<[b := Handle (p_ xa)]> (handles σ)) !! a
          = Some (Handle (p_ xb))) as Ha'.
  { apply list_lookup_insert_eq. by rewrite length_insert. }
  assert (<[a := Handle (p_ xb)]> (<[b := Handle (p_ xa)]> (handles σ)) !! b
          = Some (Handle (p_ xa))) as Hb'.
  { destruct (decide (a = b)) as [->|Hne].
    - rewrite Ha'. congruence.
    - rewrite list_lookup_insert_ne by done.
      by apply list_lookup_insert_eq. }
  rewrite Ha', Hb', Ha, Hb. simpl. by repeat split.
Qed.

End Sharing.

(** * The laws at the types of the test program *)
Module Scenario.

Import Builtin.
#[local] Existing Instance payload.

Lemma SFeqb_sym (a b : spec_float) : SFeqb a b = SFeqb b a.
Proof.
  unfold SFeqb.
  destruct a as [s|s| |s m e], b as [s'|s'| |s' m' e']; simpl;
    try reflexivity; try (by destruct s, s').
  destruct s, s'; try reflexivity;
    rewrite (Z.compare_antisym e e');
    change (Pos.compare_cont Eq m' m) with (Pos.compare m' m);
    change (Pos.compare_cont Eq m m') with (Pos.compare m m');
    rewrite (Pos.compare_antisym m m');
    destruct (e ?= e')%Z, (m ?= m')%positive; reflexivity.
Qed.

Lemma vector_bool_eq_sym (a b : list bool) :
  vector_bool_eq a b = vector_bool_eq b a.
Proof.
  revert b. induction a as [|p a IH]; intros [|q b]; simpl; try reflexivity.
  rewrite IH. by destruct p, q.
Qed.

Lemma equal_sym (u : type) (a b : values u) : equal u a b = equal u b a.
Proof.
  destruct u; simpl.
  - apply Z.eqb_sym.
  - apply SFeqb_sym.
  - by destruct a, b.
  - apply vector_bool_eq_sym.
Qed.



(** C3, witness: [x.as<int>()] is 3, [x.as(14.0)] is 14.0 *)
Lemma as_of_int_handle :
  holds heap_x x int 3%Z /\
  (as_ heap_x x int = 3%Z /\ as_or heap_x x int 0%Z = 3%Z) /\
  (as_ heap_x x double = default_value double /\
   as_or heap_x x double fourteen = fourteen).
Proof.
  assert (holds heap_x x int 3%Z) as Hx by reflexivity.
  split; [done|]. split.
  - exact (proj1 (as_recovers_or_defaults int 0%Z heap_x x) 3%Z Hx).
  - apply (proj2 (as_recovers_or_defaults double fourteen heap_x x)).
    intros v Hv. unfold holds in Hv, Hx. rewrite Hx in Hv.
    discriminate.
Defined.

(** C4, at [shared_var h; int v = 3; h = v;]: the handle gets its new
    cell with 3, as after [h = 3;], but the assignment from the lvalue
    returns nothing where the one from the rvalue returns the handle. *)
Theorem lvalue_assignment_of_int :
  assign_cref int 3%Z ∅ ctor_default
    = ({[1%positive := Cell (holder int 3%Z) 1]},
       Handle (Some 1%positive), NoReturn) /\
  assign_rref int 3%Z ∅ ctor_default
    = ({[1%positive := Cell (holder int 3%Z) 1]},
       Handle (Some 1%positive), Return (Handle (Some 1%positive))).
Proof. split; reflexivity. Qed.

(** C5, counterexample: a handle that holds the [double] NaN is not equal
    to itself. *)
Lemma nan_handle_is_not_reflexive :
  valid heap_n n = true /\ eq_var_var heap_n n n = false.
Proof. split; reflexivity. Qed.

(** C5, witness: the [int] 3 and the [double] 3.0 *)
Lemma int_three_and_double_three :
  (eq_var_var heap_xy ctor_default ctor_default = true) /\
  (eq_var_var heap_xy x x = true) /\
  (eq_var_var heap_xy x y = eq_var_var heap_xy y x) /\
  (eq_var_var heap_xy y y = true) /\
  (eq_var_var heap_xy x y = false).
Proof.
  assert (int <> double) as Hne by discriminate.
  assert (holds heap_xy x int 3%Z) as Hx by reflexivity.
  assert (holds heap_xy y double three) as Hy by reflexivity.
  pose proof (handle_equality_laws heap_xy x y) as (_ & Hrefl & Hsym & _ & Hdiff).
  pose proof (handle_equality_laws heap_xy y y) as (_ & _ & _ & Hsame & _).
  pose proof (handle_equality_laws heap_xy ctor_default x) as (Hemp & _).
  refine (conj _ (conj _ (conj _ (conj _ _)))).
  - by apply Hemp.
  - by rewrite (Hrefl int 3%Z Hx).
  - apply Hsym, equal_sym.
  - by rewrite (Hsame double three three Hy Hy).
  - exact (Hdiff int double 3%Z three Hne Hx Hy).
Defined.

(** C6, counterexample: [shared_var n(NaN); shared_var b(n);] gives a copy
    that holds NaN and is unequal to the original and to the value. *)
Lemma copy_of_nan_handle_differs :
  run (declare_n ++ [Init (OHandle 0)]) initial = Some state_n_copied /\
  content state_n_copied 0 = Some (holder double NaN) /\
  content state_n_copied 1 = Some (holder double NaN) /\
  eq_var_var (heap state_n_copied) (ctor_copy heap_n n).2 n = false /\
  eq_var_val (heap state_n_copied) (ctor_copy heap_n n).2 double NaN = false.
Proof. repeat split. Qed.

(** C6, witness: [shared_var b(x); x = "hi";] leaves [b] on 3 *)
Lemma copy_of_int_handle_survives :
  (run declare_x initial = Some state_x /\
   handles state_x !! 0 = Some x /\
   holds (heap state_x) x int 3%Z /\
   exec (Init (OHandle 0)) state_x = Some state_x_copied /\
   exec (Assign 0 (OCStr char (literal "hi"))) state_x_copied
     = Some state_x_reassigned) /\
  (content state_x_copied 1 = Some (holder int 3%Z) /\
   eq_var_var (heap state_x_copied) (Handle (p_ x)) x = true /\
   eq_var_val (heap state_x_copied) (Handle (p_ x)) int 3%Z = true /\
   content state_x_reassigned 0
     = Some (holder std_string (basic_string (literal "hi"))) /\
   content state_x_reassigned 1 = Some (holder int 3%Z)).
Proof.
  assert (run declare_x initial = Some state_x) as Hrun by reflexivity.
  assert (handles state_x !! 0 = Some x) as Ha by reflexivity.
  assert (holds (heap state_x) x int 3%Z) as Hx by reflexivity.
  assert (exec (Init (OHandle 0)) state_x = Some state_x_copied) as He
    by reflexivity.
  assert (exec (Assign 0 (OCStr char (literal "hi"))) state_x_copied
          = Some state_x_reassigned) as He2 by reflexivity.
  pose proof (copy_is_unaffected_by_reassignment declare_x state_x
                state_x_copied 0 1 x int 3%Z (Init (OHandle 0)) Hrun Ha Hx
                (or_introl (conj eq_refl eq_refl)) He)
    as (_ & _ & Hb & Heq & Heqv & Hkeep & _).
  refine (conj (conj Hrun (conj Ha (conj Hx (conj He He2))))
            (conj Hb (conj Heq (conj Heqv (conj eq_refl _))))).
  exact (Hkeep _ _ He2).
Defined.

(** C7, witness: an empty handle against [x] *)
Lemma empty_against_int_handle :
  (empty ctor_default = true /\ empty x = false) /\
  (eq_var_var heap_x ctor_default x = false /\
   eq_var_var heap_x x ctor_default = false) /\
  eq_var_var heap_x ctor_default ctor_nullptr = true /\
  empty (assign_nullptr heap_x x).1.2 = true.
Proof.
  pose proof (empty_handle_laws heap_x ctor_default x)
    as (_ & _ & _ & _ & Hdiff).
  pose proof (empty_handle_laws heap_x ctor_default ctor_nullptr)
    as (_ & _ & _ & Hsame & _).
  pose proof (empty_handle_laws heap_x x x) as (_ & _ & (Hz & _) & _).
  refine (conj (conj eq_refl eq_refl) (conj _ (conj _ Hz))).
  - by apply Hdiff.
  - by apply Hsame.
Defined.

(** C8, witness: [shared_var v("hello");] and [x = "hello";] *)
Lemma hello_is_held_as_string :
  valid heap_x x = true /\
  (let h1 := (ctor_cstr char (literal "hello") heap_x).1 in
   let a := (ctor_cstr char (literal "hello") heap_x).2 in
   holds h1 a std_string (basic_string (literal "hello")) /\
   is_ h1 a (Val std_string) = true /\
   eq_var_cstr h1 a char (literal "hello") = true /\
   eq_cstr_var h1 char (literal "hello") a = true /\
   eq_var_val h1 a std_string (basic_string (literal "hello")) = true) /\
  is_ (assign_cstr char (literal "hello") heap_x x).1.1
      (assign_cstr char (literal "hello") heap_x x).1.2 (Val std_string)
    = true.
Proof.
  assert (valid heap_x x = true) as Hv by reflexivity.
  pose proof (c_string_is_held_as_string char (literal "hello") heap_x x Hv)
    as [Hc Ha].
  split; [done|]. split; [exact Hc|].
  exact (proj1 (proj2 Ha)).
Defined.

(** C9, witness: [x == y] and the mirrored and negated forms *)
Lemma comparisons_of_int_handle :
  (forall u (a b : values u), equal u a b = equal u b a) /\
  eq_var_var heap_xy x y = eq_var_var heap_xy y x /\
  ne_var_var heap_xy x y = negb (eq_var_var heap_xy x y) /\
  eq_val_var heap_xy int 3%Z x = eq_var_val heap_xy x int 3%Z /\
  ne_var_val heap_xy x int 4%Z = negb (eq_var_val heap_xy x int 4%Z) /\
  eq_cstr_var heap_xy char (literal "hi") x
    = eq_var_cstr heap_xy x char (literal "hi").
Proof.
  pose proof (comparison_family_laws heap_xy x y int 3%Z char (literal "hi"))
    as (_ & Hsym & Hneg & (H2 & _) & _ & (H4 & _)).
  pose proof (comparison_family_laws heap_xy x y int 4%Z char (literal "hi"))
    as (_ & _ & _ & (_ & H3 & _) & _).
  exact (conj equal_sym
           (conj (proj1 (Hsym equal_sym))
              (conj Hneg (conj H2 (conj H3 H4))))).
Defined.

(** C10, witness: [shared_var x(3); shared_var y(3.0); y = std::move(x);]
    leaves [x] on the 3.0 and [y] on the 3, and the heap as it was. *)
Lemma move_of_int_handle :
  (run (declare_x ++ [Init (ORvalue double three)]) initial
     = Some (State heap_xy [x; y]) /\
   exec (Assign 1 (OMoved 0)) (State heap_xy [x; y])
     = Some (State heap_xy [y; x])) /\
  (content (State heap_xy [y; x]) 0 = Some (holder double three) /\
   content (State heap_xy [y; x]) 1 = Some (holder int 3%Z) /\
   empty y = false /\
   counted (State heap_xy [y; x])).
Proof.
  assert (run (declare_x ++ [Init (ORvalue double three)]) initial
          = Some (State heap_xy [x; y])) as Hrun by reflexivity.
  assert (exec (Assign 1 (OMoved 0)) (State heap_xy [x; y])
          = Some (State heap_xy [y; x])) as He by reflexivity.
  pose proof (move_assignment_swaps _ (State heap_xy [x; y])
                (State heap_xy [y; x]) 0 1 x y Hrun eq_refl eq_refl He)
    as (_ & _ & H0 & H1 & Hemp & Hc & _).
  exact (conj (conj Hrun He) (conj H0 (conj H1 (conj Hemp Hc)))).
Defined.

(** The scenario of the test suite: [shared_var x(3);], then [x = "hi";],
    and [shared_var y(nullptr);]. *)
Example int_then_string_then_null :
  (is_ heap_x x (Val int) = true /\
   eq_var_val heap_x x int 3%Z = true /\
   ne_var_val heap_x x int 4%Z = true) /\
  (let r := (assign_cstr char (literal "hi") heap_x x).1 in
   is_ r.1 r.2 (Val int) = false /\
   is_ r.1 r.2 (Val std_string) = true /\
   is_ r.1 r.2 (LRef (Const (Val std_string))) = true /\
   eq_var_cstr r.1 r.2 char (literal "hi") = true /\
   eq_var_cstr r.1 r.2 wchar_t (literal "hi") = false /\
   eq_var_null ctor_nullptr = true /\
   ne_var_var r.1 ctor_nullptr r.2 = true) /\
  run [Init (ORvalue int 3%Z); Init (OMoved 0); Destroy 0; Destroy 1] initial
    = Some (State ∅ [Handle None; Handle None]).
Proof. repeat split. Qed.

End Scenario.

(** * The comparison of two handles at a one-sided payload *)
Module OneSidedScenario.

Import OneSided.
#[local] Existing Instance payload.

(** C9, counterexample: with the class [at_most], after
    [shared_var a(at_most{1}); shared_var b(at_most{2});] the comparison
    [a == b] evaluates [2 <= 1] and [b == a] evaluates [1 <= 2]. *)
Lemma one_sided_handles_disagree :
  enable_if_holdable (Val at_most) = true /\
  run two_handles initial = Some (State heap_ab [a; b]) /\
  eq_var_var heap_ab a b = false /\
  eq_var_var heap_ab b a = true.
Proof. repeat split. Qed.

End OneSidedScenario.

(** * Further properties of the handle in client programs *)
Section Lifecycle.

Context {P : Payload}.

Implicit Types (h : gmap loc cell) (hs : list shared_var) (l : loc)
  (σ : program_state) (t : tag).

Lemma Handle_eta (x : shared_var) : Handle (p_ x) = x.
Proof. by destruct x. Qed.

Lemma refs_positive l hs :
  0 < refs l hs -> exists i x, hs !! i = Some x /\ p_ x = Some l.
Proof.
  induction hs as [|y hs IH]; simpl; [lia|]. intros Hpos.
  destruct (decide (p_ y = Some l)) as [Hy|Hy].
  - by exists 0, y.
  - unfold points in Hpos. destruct (decide (p_ y = Some l)); [done|].
    destruct IH as (i & x & Hi & Hx); [lia|]. by exists (S i), x.
Qed.

Lemma reachable_counted (prog : list statement) σ :
  run prog initial = Some σ -> counted σ.
Proof. apply counted_run, counted_initial. Qed.

(** ** X1 *)

(** X1: in every state a program reaches, the use count that a live cell
    records is the number of handles that refer to the cell. *)
Theorem use_count_is_number_of_handles
    (prog : list statement) σ l (c : cell) :
  run prog initial = Some σ -> heap σ !! l = Some c ->
  Pos.to_nat (use_count c) = refs l (handles σ).
Proof.
  intros Hrun Hl.
  pose proof (reachable_counted prog σ Hrun l) as Hc.
  by rewrite (owners_Some _ _ _ Hl) in Hc.
Qed.

(** ** X2 *)

(** X2: in every state a program reaches, the live cells are exactly the
    cells that some handle refers to: no handle dangles and no cell
    outlives its last handle. *)
Theorem live_cells_are_the_referenced_ones (prog : list statement) σ l :
  run prog initial = Some σ ->
  is_Some (heap σ !! l) <->
  exists i x, handles σ !! i = Some x /\ p_ x = Some l.
Proof.
  intros Hrun. pose proof (reachable_counted prog σ Hrun) as Hc. split.
  - intros [c Hl]. apply refs_positive. rewrite <- (Hc l).
    rewrite (owners_Some _ _ _ Hl). lia.
  - intros (i & x & Hi & Hx).
    pose proof (counted_lookup σ i x l Hc Hi) as Hle.
    rewrite Hx, points_same in Hle.
    destruct (owners_positive (heap σ) l) as [c Hl]; [lia|]. eauto.
Qed.

(** ** X3 *)

(** X3: a statement leaves alone every handle it does not write to: such a
    handle keeps its reference, and what it holds is what it held. *)
Theorem untouched_handles_keep_their_content
    (prog : list statement) (s : statement) σ σ' k :
  run prog initial = Some σ -> exec s σ = Some σ' ->
  k < length (handles σ) -> k ∉ writes s ->
  handles σ' !! k = handles σ !! k /\ content σ' k = content σ k.
Proof.
  intros Hrun He Hk Hw.
  pose proof (reachable_counted prog σ Hrun) as Hc.
  destruct (lookup_lt_is_Some_2 (handles σ) k Hk) as [x Hx].
  destruct (exec_frame s σ σ' k x Hc He Hw Hx) as [Hx' Hget].
  split; [congruence|]. unfold content. by rewrite Hx', Hx.
Qed.

(** ** X4 *)

Lemma assigned_value_content σ i (xi : shared_var) t (v : value t) :
  counted σ -> handles σ !! i = Some xi ->
  content (State (_hold t v (heap σ) xi).1
             (<[i := (_hold t v (heap σ) xi).2]> (handles σ))) i
  = Some (holder t v).
Proof.
  intros Hc Hi. unfold content. cbn [handles heap].
  rewrite list_lookup_insert_eq by (by eapply lookup_lt_Some).
  apply (_hold_holds t v (heap σ) xi). by eapply counted_valid.
Qed.

(** X4: in every state a program reaches, an assignment that comes back
    makes the handle hold what its right-hand side denotes, whatever the
    handle held before: the value for [operator=(T&&)], the string for a
    C-string, nothing for [nullptr], and what the other handle holds for a
    handle (copied or moved). *)
Theorem assignment_sets_content (prog : list statement) σ σ' i :
  run prog initial = Some σ ->
  (forall t (v : value t),
     exec (Assign i (ORvalue t v)) σ = Some σ' ->
     content σ' i = Some (holder t v)) /\
  (forall c (s : c_str),
     exec (Assign i (OCStr c s)) σ = Some σ' ->
     content σ' i = Some (holder (TString c) (basic_string s))) /\
  (exec (Assign i ONullptr) σ = Some σ' -> content σ' i = None) /\
  (forall j, exec (Assign i (OHandle j)) σ = Some σ' ->
     content σ' i = content σ j) /\
  (forall j, exec (Assign i (OMoved j)) σ = Some σ' ->
     content σ' i = content σ j).
Proof.
  intros Hrun. pose proof (reachable_counted prog σ Hrun) as Hc.
  repeat apply conj.
  - intros t v He. simpl in He. rewrite assign_to_unfold in He.
    destruct (handles σ !! i) as [xi|] eqn:Hi; [|done].
    cbn [mbind option_bind] in He. rewrite assign_rref_hold in He.
    injection He as <-. by apply assigned_value_content.
  - intros c s He. simpl in He. rewrite assign_to_unfold in He.
    destruct (handles σ !! i) as [xi|] eqn:Hi; [|done].
    cbn [mbind option_bind] in He. rewrite assign_cstr_hold in He.
    injection He as <-. by apply assigned_value_content.
  - intros He. simpl in He. rewrite assign_to_unfold in He.
    destruct (handles σ !! i) as [xi|] eqn:Hi; [|done].
    cbn [mbind option_bind] in He. injection He as <-.
    unfold content. cbn [handles heap].
    by rewrite list_lookup_insert_eq by (by eapply lookup_lt_Some).
  - intros j He. simpl in He. rewrite assign_to_unfold in He.
    destruct (handles σ !! i) as [xi|] eqn:Hi; [|done].
    cbn [mbind option_bind] in He.
    destruct (handles σ !! j) as [xj|] eqn:Hj; [|done].
    cbn [mbind option_bind] in He. injection He as <-.
    unfold content. cbn [handles heap]. rewrite Hj.
    rewrite list_lookup_insert_eq by (by eapply lookup_lt_Some).
    cbn [mbind option_bind p_].
    destruct (p_ xj) as [l|] eqn:E; [|done].
    unfold assign_copy. cbn [fst snd].
    pose proof (counted_lookup σ i xi l Hc Hi) as Hle1.
    pose proof (counted_lookup σ j xj l Hc Hj) as Hle2.
    rewrite E, points_same in Hle2.
    rewrite get_release, get_acquire; [done|].
    rewrite owners_acquire by (intros _; lia).
    rewrite points_same. lia.
  - intros j He. simpl in He. rewrite assign_to_unfold in He.
    destruct (handles σ !! i) as [xi|] eqn:Hi; [|done].
    cbn [mbind option_bind] in He.
    destruct (handles σ !! j) as [xj|] eqn:Hj; [|done].
    cbn [mbind option_bind] in He. injection He as <-.
    unfold content. cbn [handles heap]. rewrite Hj.
    cbn [mbind option_bind]. simpl.
    pose proof (lookup_lt_Some _ _ _ Hi) as Hli.
    destruct (decide (i = j)) as [->|Hne].
    + assert (xi = xj) as -> by congruence.
      by rewrite list_lookup_insert_eq by (by rewrite length_insert).
    + rewrite list_lookup_insert_ne by (intros ->; by apply Hne).
      by rewrite list_lookup_insert_eq.
Qed.

(** ** X5 *)

Lemma release_after_acquire h l :
  sp_release (Some l) (sp_acquire (Some l) h) = h.
Proof.
  apply map_eq. intros k.
  destruct (h !! l) as [c|] eqn:Hl.
  - pose proof (sp_acquire_lookup l h c Hl) as Ha.
    destruct (decide (k = l)) as [->|Hne].
    + rewrite (sp_release_lookup_shared _ _ _ Ha) by (simpl; lia).
      simpl. rewrite Pos.pred_succ, Hl. by destruct c.
    + rewrite sp_release_lookup_ne, sp_acquire_lookup_ne; congruence.
  - assert (sp_acquire (Some l) h !! l = None) as Ha.
    { unfold sp_acquire. by rewrite lookup_alter_eq, Hl. }
    unfold sp_release. rewrite Ha. unfold sp_acquire.
    destruct (decide (k = l)) as [->|Hne].
    + by rewrite lookup_alter_eq, Hl.
    + rewrite lookup_alter_ne; congruence.
Qed.

(** X5: assigning a handle to itself, by copy or by move, changes
    nothing: neither the handle nor the heap. *)
Theorem self_assignment_changes_nothing σ i :
  i < length (handles σ) ->
  exec (Assign i (OHandle i)) σ = Some σ /\
  exec (Assign i (OMoved i)) σ = Some σ.
Proof.
  intros Hi. destruct (lookup_lt_is_Some_2 (handles σ) i Hi) as [xi Hxi].
  destruct σ as [h hs]. simpl in *. rewrite !assign_to_unfold.
  cbn [handles heap].
  rewrite Hxi. cbn [mbind option_bind]. split.
  - unfold assign_copy. cbn [fst snd]. rewrite Handle_eta.
    rewrite (list_insert_id hs i xi Hxi). f_equal. f_equal.
    destruct (p_ xi) as [l|]; [apply release_after_acquire|done].
  - unfold assign_move. cbn [fst snd]. rewrite Handle_eta.
    by rewrite !(list_insert_id hs i xi Hxi).
Qed.

(** ** X6 *)

(** X6: move construction [shared_var b(std::move(a));] hands the cell of
    [a] over to the new handle and leaves [a] empty; the heap, and with it
    every use count, is the same. *)
Theorem move_construction_transfers σ σ' a (xa : shared_var) :
  handles σ !! a = Some xa -> exec (Init (OMoved a)) σ = Some σ' ->
  heap σ' = heap σ /\
  length (handles σ') = S (length (handles σ)) /\
  content σ' (length (handles σ)) = content σ a /\
  handles σ' !! a = Some (Handle None) /\
  content σ' a = None.
Proof.
  intros Ha He. simpl in He. rewrite Ha in He.
  cbn [mbind option_bind] in He. injection He as <-.
  pose proof (lookup_lt_Some _ _ _ Ha) as Hlt.
  unfold content. cbn [handles heap]. simpl.
  assert ((<[a := Handle None]> (handles σ) ++ [Handle (p_ xa)]) !! a
          = Some (Handle None)) as Ha'.
  { rewrite lookup_app_l by (by rewrite length_insert).
    by apply list_lookup_insert_eq. }
  assert ((<[a := Handle None]> (handles σ) ++ [Handle (p_ xa)])
            !! length (handles σ) = Some (Handle (p_ xa))) as Hn.
  { apply list_lookup_middle. by rewrite length_insert. }
  rewrite Ha', Hn, Ha. simpl. repeat split.
  rewrite length_app, length_insert. simpl. lia.
Qed.

(** ** X7 *)

(** X7: copy construction [shared_var b(a);] allocates nothing: the new
    handle has the reference of [a], the cell has one more owner and the
    same object, and every other location of the heap is as it was. *)
Theorem copy_construction_shares σ σ' a (xa : shared_var) l (c : cell) :
  handles σ !! a = Some xa -> p_ xa = Some l -> heap σ !! l = Some c ->
  exec (Init (OHandle a)) σ = Some σ' ->
  handles σ' !! length (handles σ) = Some (Handle (Some l)) /\
  heap σ' !! l = Some (Cell (object c) (Pos.succ (use_count c))) /\
  (forall l', l' <> l -> heap σ' !! l' = heap σ !! l') /\
  dom (heap σ') = dom (heap σ).
Proof.
  intros Ha Hp Hl He. simpl in He. rewrite Ha in He.
  cbn [mbind option_bind] in He. injection He as <-.
  cbn [handles heap]. unfold ctor_copy. cbn [fst snd]. rewrite Hp.
  repeat split.
  - by apply list_lookup_middle.
  - by rewrite (sp_acquire_lookup _ _ _ Hl).
  - intros l' Hne. apply sp_acquire_lookup_ne. congruence.
  - unfold sp_acquire. apply dom_alter_L.
Qed.

(** ** X8 *)

Lemma hold_gets_its_own_cell σ i (xi : shared_var) t (v : value t) :
  counted σ -> handles σ !! i = Some xi ->
  let σ' := State (_hold t v (heap σ) xi).1
              (<[i := (_hold t v (heap σ) xi).2]> (handles σ)) in
  exists l,
    handles σ' !! i = Some (Handle (Some l)) /\
    heap σ !! l = None /\
    heap σ' !! l = Some (Cell (holder t v) 1) /\
    (forall k x, k <> i -> handles σ' !! k = Some x -> p_ x <> Some l).
Proof.
  intros Hc Hi σ'. unfold σ'. cbn [handles heap].
  exists (make_shared (holder t v) (heap σ)).1.
  pose proof (make_shared_fresh (holder t v) (heap σ)) as Hfresh.
  assert (forall k x, handles σ !! k = Some x ->
            p_ x <> Some (make_shared (holder t v) (heap σ)).1) as Hold.
  { intros k x Hk Hp.
    pose proof (counted_valid σ k x Hc Hk) as Hv. unfold valid in Hv.
    rewrite Hp in Hv. apply bool_decide_eq_true in Hv as [c' Hc'].
    congruence. }
  repeat split.
  - by rewrite list_lookup_insert_eq by (by eapply lookup_lt_Some).
  - done.
  - change (_hold t v (heap σ) xi).1
      with (sp_release (p_ xi) (make_shared (holder t v) (heap σ)).2).
    rewrite sp_release_lookup_ne by (by apply (Hold i)).
    apply make_shared_lookup.
  - intros k x Hne Hk. rewrite list_lookup_insert_ne in Hk by done.
    by apply (Hold k).
Qed.

(** X8: in every state a program reaches, assigning an rvalue or a
    C-string to a handle puts it in a cell that did not exist before and
    whose only owner is the assigned handle: no other handle refers to
    it. *)
Theorem value_assignment_gets_its_own_cell
    (prog : list statement) σ σ' i :
  run prog initial = Some σ ->
  (forall t (v : value t),
     exec (Assign i (ORvalue t v)) σ = Some σ' ->
     exists l,
       handles σ' !! i = Some (Handle (Some l)) /\
       heap σ !! l = None /\
       heap σ' !! l = Some (Cell (holder t v) 1) /\
       (forall k x, k <> i -> handles σ' !! k = Some x -> p_ x <> Some l)) /\
  (forall c (s : c_str),
     exec (Assign i (OCStr c s)) σ = Some σ' ->
     exists l,
       handles σ' !! i = Some (Handle (Some l)) /\
       heap σ !! l = None /\
       heap σ' !! l
         = Some (Cell (holder (TString c) (basic_string s)) 1) /\
       (forall k x, k <> i -> handles σ' !! k = Some x -> p_ x <> Some l)).
Proof.
  intros Hrun. pose proof (reachable_counted prog σ Hrun) as Hc.
  split.
  - intros t v He. simpl in He. rewrite assign_to_unfold in He.
    destruct (handles σ !! i) as [xi|] eqn:Hi; [|done].
    cbn [mbind option_bind] in He. rewrite assign_rref_hold in He.
    injection He as <-. by apply hold_gets_its_own_cell.
  - intros c s He. simpl in He. rewrite assign_to_unfold in He.
    destruct (handles σ !! i) as [xi|] eqn:Hi; [|done].
    cbn [mbind option_bind] in He. rewrite assign_cstr_hold in He.
    injection He as <-.
    by apply (hold_gets_its_own_cell σ i xi (TString c) (basic_string s)).
Qed.

(** ** X9 *)



(** ** X10 *)

(** X10: comparing a handle with a value is the conjunction of the type
    test and the comparison of the recovered value: [h == v] is
    [h.is<T>() && h.as<T>() == v]. *)
Theorem value_comparison_is_type_test_and_recovery
    h (x : shared_var) t (v : value t) :
  eq_var_val h x t v = is_ h x (Val t) && op_eq t (as_ h x t) v.
Proof.
  unfold eq_var_val, _equals_val, is_, as_.
  cbn [_Is_nullptr_t is_same_nullptr_t remove_cv decay remove_reference
       dynamic_cast_to].
  destruct (p_ x) as [l|]; [|done].
  destruct (get h (Some l)) as [o|]; cbn [mbind option_bind]; [|done].
  destruct (dynamic_cast t o) as [w|] eqn:E.
  - by rewrite bool_decide_eq_true_2 by eauto.
  - rewrite bool_decide_eq_false_2; [done|]. by intros [? ?].
Qed.

(** ** X11 *)

(** X11: comparing two handles is comparing the second with the value of
    the first: when [x] holds [v], [x == y] is [y == v]; when [x] is
    empty, [x == y] is [y == nullptr]. *)
Theorem handle_comparison_goes_through_the_value
    h (x y : shared_var) t (v : value t) :
  (holds h x t v -> eq_var_var h x y = eq_var_val h y t v) /\
  (empty x = true -> eq_var_var h x y = eq_var_null y).
Proof.
  split.
  - intros Hx. unfold eq_var_var, _equals, eq_var_val, _equals_val.
    destruct (holds_p_ _ _ _ _ Hx) as [l Hl]. unfold holds in Hx.
    rewrite Hl in *. rewrite Hx.
    destruct (p_ y) as [r|]; [|done].
    destruct (get h (Some r)) as [o|]; [|done].
    unfold equals. simpl. by destruct (dynamic_cast t o).
  - intros He%bool_decide_eq_true.
    unfold eq_var_var, _equals, eq_var_null, empty. rewrite He.
    by destruct (p_ y).
Qed.

(** ** X12 *)

(** X12: handle equality is transitive whenever the equality of the
    payload types is. *)
Theorem handle_equality_is_transitive h (x y z : shared_var) :
  (forall u (a b c : carrier u),
     val_eq u b a = true -> val_eq u c b = true -> val_eq u c a = true) ->
  eq_var_var h x y = true -> eq_var_var h y z = true ->
  eq_var_var h x z = true.
Proof.
  intros Htrans. unfold eq_var_var, _equals.
  destruct (p_ x) as [lx|], (p_ y) as [ly|], (p_ z) as [lz|]; try done.
  destruct (get h (Some lx)) as [[t a]|]; [|done].
  destruct (get h (Some ly)) as [[t' b]|]; [|done].
  destruct (get h (Some lz)) as [[t'' c]|]; [|done].
  change (equals (holder t a) (holder t' b) = true ->
          equals (holder t' b) (holder t'' c) = true ->
          equals (holder t a) (holder t'' c) = true).
  destruct (decide (t = t')) as [<-|Hne];
    [|by rewrite (equals_other _ _ _ _ Hne)].
  destruct (decide (t = t'')) as [<-|Hne];
    [|by rewrite (equals_other t t'' b c Hne)].
  rewrite !equals_same. destruct t as [ch|u]; simpl.
  - intros Hba Hcb.
    assert (forall p q : list N, string_eq p q = true -> p = q) as Heq.
    { induction p as [|n p IH]; intros [|m q]; simpl; try done.
      intros [Hn Hpq]%andb_true_iff. apply N.eqb_eq in Hn.
      f_equal; auto. }
    apply Heq in Hba as ->. exact Hcb.
  - apply Htrans.
Qed.

(** ** X13 *)

Lemma string_eq_true (a b : list N) : string_eq a b = true <-> a = b.
Proof.
  split; [|intros ->; apply string_eq_refl].
  revert b. induction a as [|n a IH]; intros [|m b]; simpl; try done.
  intros [Hn Hab]%andb_true_iff. apply N.eqb_eq in Hn. f_equal; auto.
Qed.

(** X13: a handle constructed from a C-string equals a C-string exactly
    when the two have the same character width and the same characters up
    to their first zero. *)
Theorem c_string_comparison h (c c' : CharT) (s s' : c_str) :
  eq_var_cstr (ctor_cstr c s h).1 (ctor_cstr c s h).2 c' s' = true
  <-> c = c' /\ basic_string s = basic_string s'.
Proof.
  assert (holds (ctor_cstr c s h).1 (ctor_cstr c s h).2
            (TString c) (basic_string s)) as Hh by (by apply _hold_holds).
  unfold eq_var_cstr, eq_var_val.
  destruct (decide (c = c')) as [<-|Hne].
  - rewrite (_equals_val_holds _ _ _ _ _ Hh). simpl.
    rewrite string_eq_true. split; [by intros Heq|by intros [_ Heq]].
  - rewrite (_equals_val_other _ _ (TString c) (TString c') _ _ Hh)
      by congruence.
    split; [done|]. by intros [? _].
Qed.

(** ** X14 *)

(** X14: handing a temporary over, the steps by which
    [push_back(shared_var(v))] stores its argument (construct the
    temporary, move-construct the element from it, destroy the temporary),
    leaves one new cell with the value and one owner, the element; the
    temporary ends empty and nothing else changes. *)
Theorem temporary_is_handed_over σ t (v : value t) :
  let n := length (handles σ) in
  let l := (make_shared (holder t v) (heap σ)).1 in
  run [Init (ORvalue t v); Init (OMoved n); Destroy n] σ
  = Some (State (<[l := Cell (holder t v) 1]> (heap σ))
            (handles σ ++ [Handle None; Handle (Some l)])).
Proof.
  intros n l. unfold run. cbn [exec construct heap handles].
  cbn [mbind option_bind].
  assert ((handles σ ++ [(ctor_rref t v (heap σ)).2]) !! n
          = Some (Handle (Some l))) as Hn by (by apply list_lookup_middle).
  cbn [heap handles]. rewrite Hn. cbn [mbind option_bind].
  unfold destroy. cbn [heap handles].
  assert (forall z : shared_var,
            <[n := Handle None]> (handles σ ++ [z]) = handles σ ++ [Handle None])
    as Hins.
  { intros z. rewrite insert_app_r_alt by (unfold n; lia).
    by replace (n - length (handles σ)) with 0 by (unfold n; lia). }
  assert ((<[n := (ctor_move (Handle (Some l))).2]>
             (handles σ ++ [(ctor_rref t v (heap σ)).2])
           ++ [(ctor_move (Handle (Some l))).1]) !! n
          = Some (Handle None)) as Hn'.
  { rewrite Hins. rewrite <- app_assoc. by apply list_lookup_middle. }
  rewrite Hn'. cbn [mbind option_bind p_ sp_release].
  f_equal. f_equal.
  rewrite Hins. rewrite <- app_assoc. simpl.
  rewrite insert_app_r_alt by (unfold n; lia).
  by replace (n - length (handles σ)) with 0 by (unfold n; lia).
Qed.

(** ** X15 *)

(** X15: default construction followed by an assignment that comes back
    is construction from the same right-hand side: for an rvalue, a
    C-string, [nullptr] or a handle, copied or moved,
    [shared_var v; v = o;] ends in the state of [shared_var v(o);].  (An
    lvalue of a value type is left out: [operator=(const T&)] does not
    return.) *)
Theorem assignment_to_a_new_handle_is_construction (o : operand) σ σ' :
  (forall t (v : value t), o <> OLvalue t v) ->
  exec (Init o) σ = Some σ' ->
  run [Decl; Assign (length (handles σ)) o] σ = Some σ'.
Proof.
  intros Hrv He. unfold run. cbn [exec heap handles mbind option_bind].
  rewrite assign_to_unfold. cbn [heap handles].
  assert (forall z : shared_var,
            <[length (handles σ) := z]> (handles σ ++ [ctor_default])
            = handles σ ++ [z]) as Hins.
  { intros z. rewrite insert_app_r_alt by lia.
    by replace (length (handles σ) - length (handles σ)) with 0 by lia. }
  rewrite (list_lookup_middle (handles σ) [] ctor_default _ eq_refl).
  cbn [mbind option_bind].
  destruct o as [j|j| |c s|t v|t v]; simpl in He; cbv zeta.
  - destruct (handles σ !! j) as [xj|] eqn:Hj; [|done].
    rewrite (lookup_app_l_Some _ _ _ _ Hj). cbn [mbind option_bind].
    injection He as <-. by rewrite Hins.
  - destruct (handles σ !! j) as [xj|] eqn:Hj; [|done].
    rewrite (lookup_app_l_Some _ _ _ _ Hj). cbn [mbind option_bind].
    injection He as <-. simpl. rewrite Hins.
    by rewrite insert_app_l by (by eapply lookup_lt_Some).
  - injection He as <-. simpl. by rewrite Hins.
  - injection He as <-. rewrite assign_cstr_hold. by rewrite Hins.
  - by destruct (Hrv t v).
  - injection He as <-. rewrite assign_rref_hold. by rewrite Hins.
Qed.

End Lifecycle.

(** * The further properties at the types of the test program *)
Module Usage.

Import Builtin.
#[local] Existing Instance payload.

Lemma SFeqb_true (a b : spec_float) :
  SFeqb a b = true ->
  a = b \/ exists s s', a = S754_zero s /\ b = S754_zero s'.
Proof.
  unfold SFeqb.
  destruct a as [s|s| |s m e], b as [s'|s'| |s' m' e']; simpl;
    try discriminate; try (by destruct s); try (by destruct s').
  - intros _. right. by exists s, s'.
  - destruct s, s'; try discriminate; by left.
  - destruct s, s'; try discriminate;
      destruct (e ?= e')%Z eqn:He; try discriminate;
      apply Z.compare_eq in He; subst e';
      change (Pos.compare_cont Eq m m') with (Pos.compare m m');
      destruct (m ?= m')%positive eqn:Hm; try discriminate;
      apply Pos.compare_eq in Hm; subst m'; by left.
Qed.

Lemma SFeqb_trans (a b c : spec_float) :
  SFeqb b a = true -> SFeqb c b = true -> SFeqb c a = true.
Proof.
  intros [->|(s & s' & -> & ->)]%SFeqb_true; [done|].
  intros [->|(s1 & s2 & -> & ?)]%SFeqb_true; reflexivity.
Qed.

Lemma vector_bool_eq_true (a b : list bool) :
  vector_bool_eq a b = true -> a = b.
Proof.
  revert b. induction a as [|p a IH]; intros [|q b]; simpl; try done.
  intros [Hp Hab]%andb_true_iff. apply Bool.eqb_prop in Hp.
  f_equal; auto.
Qed.

Lemma equal_trans (u : type) (a b c : values u) :
  equal u b a = true -> equal u c b = true -> equal u c a = true.
Proof.
  destruct u; simpl.
  - by intros ->%Z.eqb_eq.
  - apply SFeqb_trans.
  - by intros ->%Bool.eqb_prop.
  - by intros ->%vector_bool_eq_true.
Qed.

(** X1, witness: after [shared_var x(3); shared_var b(x);] the cell counts
    two owners and two handles refer to it. *)
Lemma count_of_shared_int :
  (run shared_twice initial = Some state_x_copied /\
   heap state_x_copied !! 1%positive = Some (Cell (holder int 3%Z) 2)) /\
  Pos.to_nat 2 = refs 1%positive (handles state_x_copied).
Proof.
  assert (run shared_twice initial = Some state_x_copied) as Hrun
    by reflexivity.
  assert (heap state_x_copied !! 1%positive = Some (Cell (holder int 3%Z) 2))
    as Hl by reflexivity.
  exact (conj (conj Hrun Hl)
           (use_count_is_number_of_handles shared_twice state_x_copied
              1%positive (Cell (holder int 3%Z) 2) Hrun Hl)).
Defined.

(** X2, witness: in that state location 1 is live and referred to. *)
Lemma live_cell_of_shared_int :
  run shared_twice initial = Some state_x_copied /\
  (is_Some (heap state_x_copied !! 1%positive) <->
   exists i z, handles state_x_copied !! i = Some z /\ p_ z = Some 1%positive).
Proof.
  assert (run shared_twice initial = Some state_x_copied) as Hrun
    by reflexivity.
  exact (conj Hrun
           (live_cells_are_the_referenced_ones shared_twice state_x_copied
              1%positive Hrun)).
Defined.

(** X3, witness: [x = "hi";] does not touch the copy [b]. *)
Lemma copy_untouched_by_string_assignment :
  (run shared_twice initial = Some state_x_copied /\
   exec (Assign 0 (OCStr char (literal "hi"))) state_x_copied
     = Some state_x_reassigned /\
   1 < length (handles state_x_copied) /\
   1 ∉ writes (Assign 0 (OCStr char (literal "hi")))) /\
  (handles state_x_reassigned !! 1 = handles state_x_copied !! 1 /\
   content state_x_reassigned 1 = content state_x_copied 1).
Proof.
  assert (run shared_twice initial = Some state_x_copied) as Hrun
    by reflexivity.
  assert (exec (Assign 0 (OCStr char (literal "hi"))) state_x_copied
          = Some state_x_reassigned) as He by reflexivity.
  assert (1 < length (handles state_x_copied)) as Hk by (simpl; lia).
  assert (1 ∉ writes (Assign 0 (OCStr char (literal "hi")))) as Hw.
  { simpl. apply not_elem_of_cons. split; [done|apply not_elem_of_nil]. }
  exact (conj (conj Hrun (conj He (conj Hk Hw)))
           (untouched_handles_keep_their_content shared_twice _
              state_x_copied state_x_reassigned 1 Hrun He Hk Hw)).
Defined.

(** X4, witness: after [x = "hi";] the handle holds the string. *)
Lemma string_assigned_over_int :
  (run shared_twice initial = Some state_x_copied /\
   exec (Assign 0 (OCStr char (literal "hi"))) state_x_copied
     = Some state_x_reassigned) /\
  content state_x_reassigned 0
  = Some (holder std_string (basic_string (literal "hi"))).
Proof.
  assert (run shared_twice initial = Some state_x_copied) as Hrun
    by reflexivity.
  assert (exec (Assign 0 (OCStr char (literal "hi"))) state_x_copied
          = Some state_x_reassigned) as He by reflexivity.
  pose proof (assignment_sets_content shared_twice state_x_copied
                state_x_reassigned 0 Hrun) as (_ & Hstr & _).
  exact (conj (conj Hrun He) (Hstr char (literal "hi") He)).
Defined.

(** X5, witness: [x = x;] and [x = std::move(x);] *)
Lemma self_assignment_of_int_handle :
  0 < length (handles state_x) /\
  exec (Assign 0 (OHandle 0)) state_x = Some state_x /\
  exec (Assign 0 (OMoved 0)) state_x = Some state_x.
Proof.
  assert (0 < length (handles state_x)) as Hi by (simpl; lia).
  exact (conj Hi (self_assignment_changes_nothing state_x 0 Hi)).
Defined.

(** X6, witness: [shared_var b(std::move(x));] *)
Lemma move_construction_from_int_handle :
  (handles state_x !! 0 = Some x /\
   exec (Init (OMoved 0)) state_x = Some (State heap_x [Handle None; x])) /\
  (heap (State heap_x [Handle None; x]) = heap state_x /\
   length (handles (State heap_x [Handle None; x]))
     = S (length (handles state_x)) /\
   content (State heap_x [Handle None; x]) (length (handles state_x))
     = content state_x 0 /\
   handles (State heap_x [Handle None; x]) !! 0 = Some (Handle None) /\
   content (State heap_x [Handle None; x]) 0 = None).
Proof.
  assert (handles state_x !! 0 = Some x) as Ha by reflexivity.
  assert (exec (Init (OMoved 0)) state_x
          = Some (State heap_x [Handle None; x])) as He by reflexivity.
  exact (conj (conj Ha He)
           (move_construction_transfers state_x _ 0 x Ha He)).
Defined.

(** X7, witness: [shared_var b(x);] *)
Lemma copy_construction_from_int_handle :
  (handles state_x !! 0 = Some x /\ p_ x = Some 1%positive /\
   heap state_x !! 1%positive = Some (Cell (holder int 3%Z) 1) /\
   exec (Init (OHandle 0)) state_x = Some state_x_copied) /\
  (handles state_x_copied !! 1 = Some (Handle (Some 1%positive)) /\
   heap state_x_copied !! 1%positive = Some (Cell (holder int 3%Z) 2) /\
   dom (heap state_x_copied) = dom (heap state_x)).
Proof.
  assert (handles state_x !! 0 = Some x) as Ha by reflexivity.
  assert (p_ x = Some 1%positive) as Hp by reflexivity.
  assert (heap state_x !! 1%positive = Some (Cell (holder int 3%Z) 1))
    as Hl by reflexivity.
  assert (exec (Init (OHandle 0)) state_x = Some state_x_copied) as He
    by reflexivity.
  pose proof (copy_construction_shares state_x state_x_copied 0 x
                1%positive (Cell (holder int 3%Z) 1) Ha Hp Hl He)
    as (H1 & H2 & _ & H4).
  exact (conj (conj Ha (conj Hp (conj Hl He))) (conj H1 (conj H2 H4))).
Defined.

(** X8, witness: [shared_var x(3); shared_var b(x); x = 4;] *)
Lemma int_assigned_to_shared_handle :
  (run shared_twice initial = Some state_x_copied /\
   exec (Assign 0 (ORvalue int 4%Z)) state_x_copied
     = Some (State (_hold int 4%Z (heap state_x_copied) x).1
               [(_hold int 4%Z (heap state_x_copied) x).2;
                (ctor_copy heap_x x).2])) /\
  exists l,
    (_hold int 4%Z (heap state_x_copied) x).2 = Handle (Some l) /\
    heap state_x_copied !! l = None /\
    (_hold int 4%Z (heap state_x_copied) x).1 !! l
      = Some (Cell (holder int 4%Z) 1).
Proof.
  assert (run shared_twice initial = Some state_x_copied) as Hrun
    by reflexivity.
  assert (exec (Assign 0 (ORvalue int 4%Z)) state_x_copied
          = Some (State (_hold int 4%Z (heap state_x_copied) x).1
                    [(_hold int 4%Z (heap state_x_copied) x).2;
                     (ctor_copy heap_x x).2])) as He by reflexivity.
  destruct (proj1 (value_assignment_gets_its_own_cell shared_twice
                     state_x_copied _ 0 Hrun) int 4%Z He)
    as (l & H1 & H2 & H3 & _).
  exact (conj (conj Hrun He)
           (ex_intro _ l
              (conj (f_equal (default ctor_default) H1) (conj H2 H3)))).
Defined.


(** X11, witness: [x == y] is [y == 3]. *)
Lemma int_handle_compared_through_value :
  holds heap_xy x int 3%Z /\
  eq_var_var heap_xy x y = eq_var_val heap_xy y int 3%Z /\
  eq_var_var heap_xy ctor_default y = eq_var_null y.
Proof.
  assert (holds heap_xy x int 3%Z) as Hx by reflexivity.
  pose proof (handle_comparison_goes_through_the_value heap_xy x y int 3%Z)
    as [Hval _].
  pose proof (handle_comparison_goes_through_the_value heap_xy ctor_default y
                int 3%Z) as [_ Hnull].
  exact (conj Hx (conj (Hval Hx) (Hnull eq_refl))).
Defined.

(** X12, witness: [x], its copy and [x] again. *)
Lemma transitivity_at_int_handles :
  ((forall u (a b c : values u),
      equal u b a = true -> equal u c b = true -> equal u c a = true) /\
   eq_var_var (heap state_x_copied) x (ctor_copy heap_x x).2 = true /\
   eq_var_var (heap state_x_copied) (ctor_copy heap_x x).2 x = true) /\
  eq_var_var (heap state_x_copied) x x = true.
Proof.
  assert (eq_var_var (heap state_x_copied) x (ctor_copy heap_x x).2 = true)
    as H1 by reflexivity.
  assert (eq_var_var (heap state_x_copied) (ctor_copy heap_x x).2 x = true)
    as H2 by reflexivity.
  exact (conj (conj equal_trans (conj H1 H2))
           (handle_equality_is_transitive (heap state_x_copied) x
              (ctor_copy heap_x x).2 x equal_trans H1 H2)).
Defined.

(** X15, witness: [shared_var v; v = 3;] against [shared_var v(3);] *)
Lemma declare_then_assign_int :
  ((forall t (v : value t), ORvalue int 3%Z <> OLvalue t v) /\
   exec (Init (ORvalue int 3%Z)) initial = Some state_x) /\
  run [Decl; Assign (length (handles initial)) (ORvalue int 3%Z)] initial
  = Some state_x.
Proof.
  assert (forall t (v : value t), ORvalue int 3%Z <> OLvalue t v) as Hrv
    by discriminate.
  assert (exec (Init (ORvalue int 3%Z)) initial = Some state_x) as He
    by reflexivity.
  exact (conj (conj Hrv He)
           (assignment_to_a_new_handle_is_construction _ initial state_x
              Hrv He)).
Defined.

End Usage.
